(** * Conference backend: admission control and identity issuance

    A shallow embedding of [src/conference_backend.js], an Express
    application over a MySQL store.  Every route handler of the source has
    the shape

      app.post(path, async (req, res) => { try { ... } catch (error) {
        console.error(error); res.status(500).json({ error: ... }) } })

    so a handler is modelled as a function from the world (store, mail
    outbox, console) to a response and a new world, written in a small
    state-and-exception monad: each [await] of the source is one monadic
    bind, a rejected promise is a thrown [error], and the [catch] block is
    [try_catch].

    Modelling decisions, all on the side of the store (the queries are
    the source's own):
    - the tables are the ones the queries name ([participants],
      [tracks_sessions], [attendance]); their columns are the ones the
      queries read and write;
    - the constraints are the ones the declared schema gives (lines 40-71):
      AUTO_INCREMENT primary keys, UNIQUE [email] and [QR_code], the foreign
      keys of [Attendance]; [check_in_time] is a nullable DATETIME without
      default;
    - the queries call the sessions table [tracks_sessions] and the schema
      calls it [Sessions]: it is one table here, under the name the queries
      use, and [session_id] is its key;
    - [sessions_registered] holds text, as the CONCAT of line 230 treats it;
    - the AUTO_INCREMENT counters are bookkeeping of the store: which value
      a rejected INSERT leaves in them depends on the engine, and the
      properties below are stated on the rows;
    - column widths, collations and an unreachable store are not modelled:
      text is compared exactly and every query reaches the store.

    [initializeDatabase] (never called, and naming tables the queries do
    not use), the [/test-db] probe and the start-up code are not
    embedded. *)

From Stdlib Require Import ZArith List String Ascii Bool Lia DecimalString.
Import ListNotations.
Local Open Scope Z_scope.

(** ** JSON values and HTTP responses *)

#[warnings="-register-all"]
Inductive json : Type :=
| JNull
| JNum (n : Z)
| JStr (s : string)
| JArr (items : list json)
| JObj (fields : list (string * json)).

(** [has_key k j]: some object inside [j] has a property named [k]. *)
Fixpoint has_key (k : string) (j : json) : bool :=
  match j with
  | JArr items => existsb (has_key k) items
  | JObj fields =>
      existsb (fun kv => String.eqb (fst kv) k || has_key k (snd kv)) fields
  | _ => false
  end.

Definition nullable (o : option string) : json :=
  match o with
  | Some s => JStr s
  | None => JNull
  end.

(** [res.status(status).json(body)] *)
Record response : Type := { status : Z; body : json }.

Definition json_error (msg : string) : json := JObj [("error"%string, JStr msg)].
Definition json_message (msg : string) : json := JObj [("message"%string, JStr msg)].

(** ** The relational store *)

Module Participants.
Record row : Type := {
  participant_id : Z;
  name : string;
  email : string;
  organization : option string;
  password_hash : string;
  qr_code : string;
  sessions_registered : option string
}.

(** The row as [SELECT *] returns it. *)
Definition select_star (p : row) : json :=
  JObj [("participant_id"%string, JNum (participant_id p));
        ("name"%string, JStr (name p));
        ("email"%string, JStr (email p));
        ("organization"%string, nullable (organization p));
        ("password_hash"%string, JStr (password_hash p));
        ("qr_code"%string, JStr (qr_code p));
        ("sessions_registered"%string, nullable (sessions_registered p))].

(** The row as
    [SELECT participant_id, name, email, sessions_registered] returns it. *)
Definition select_listing (p : row) : json :=
  JObj [("participant_id"%string, JNum (participant_id p));
        ("name"%string, JStr (name p));
        ("email"%string, JStr (email p));
        ("sessions_registered"%string, nullable (sessions_registered p))].
End Participants.

Module TracksSessions.
Record row : Type := {
  session_id : Z;
  track : string;
  session_name : string;
  speaker : string;
  time : string;
  venue : string;
  capacity : Z
}.
End TracksSessions.

Module Attendance.
Record row : Type := {
  attendance_id : Z;
  participant_id : Z;
  session_id : Z;
  check_in_time : option string
}.

Definition select_star (a : row) : json :=
  JObj [("attendance_id"%string, JNum (attendance_id a));
        ("participant_id"%string, JNum (participant_id a));
        ("session_id"%string, JNum (session_id a));
        ("check_in_time"%string, nullable (check_in_time a))].
End Attendance.

Record store : Type := {
  participants : list Participants.row;
  participants_auto_increment : Z;
  tracks_sessions : list TracksSessions.row;
  attendance : list Attendance.row;
  attendance_auto_increment : Z
}.

(** What a rejected promise carries. *)
Inductive error : Type :=
| ER_DUP_ENTRY (key : string)
| ER_NO_REFERENCED_ROW (column : string)
| TypeError (msg : string)
| BcryptError (msg : string)
| QRCodeError
| SMTPError.

Record mail : Type := {
  from : string;
  to : string;
  subject : string;
  html : string
}.

Record world : Type := {
  db : store;
  outbox : list mail;
  console : list error
}.

Definition with_db (w : world) (s : store) : world :=
  {| db := s; outbox := outbox w; console := console w |}.

(** ** Queries, as functions of the store *)

(** [SELECT * FROM participants WHERE email = ?] *)
Definition select_participants_by_email (e : string) (s : store)
  : list Participants.row :=
  filter (fun p => String.eqb (Participants.email p) e) (participants s).

Definition participant_exists (pid : Z) (s : store) : bool :=
  existsb (fun p => Participants.participant_id p =? pid) (participants s).

Definition session_exists (sid : Z) (s : store) : bool :=
  existsb (fun t => TracksSessions.session_id t =? sid) (tracks_sessions s).

(** [INSERT INTO participants (name, email, password_hash, qr_code)
    VALUES (?, ?, ?, ?)]: the UNIQUE keys are checked, the other columns
    take their defaults (NULL), the key is the next AUTO_INCREMENT value. *)
Definition insert_participant (n e passwordHash qrCode : string) (s : store)
  : error + (Z * store) :=
  if existsb (fun p => String.eqb (Participants.email p) e) (participants s)
  then inl (ER_DUP_ENTRY "email")
  else if existsb (fun p => String.eqb (Participants.qr_code p) qrCode)
                  (participants s)
  then inl (ER_DUP_ENTRY "QR_code")
  else
    let insertId := participants_auto_increment s in
    inr (insertId,
         {| participants :=
              participants s ++
              [{| Participants.participant_id := insertId;
                  Participants.name := n;
                  Participants.email := e;
                  Participants.organization := None;
                  Participants.password_hash := passwordHash;
                  Participants.qr_code := qrCode;
                  Participants.sessions_registered := None |}];
            participants_auto_increment := insertId + 1;
            tracks_sessions := tracks_sessions s;
            attendance := attendance s;
            attendance_auto_increment := attendance_auto_increment s |}).

(** [Number.isSafeInteger]: the integers a JavaScript number holds exactly.
    The handler holds [session_id] as a JavaScript number; an integer of
    the request body outside this range reaches the query as another
    number. *)
Definition isSafeInteger (z : Z) : bool := Z.abs z <=? 9007199254740991.

(** The text MySQL gives a number inside CONCAT: its decimal digits.  This
    is the text of the number of the request for a safe integer only;
    statements that name the text carry [isSafeInteger] as a hypothesis. *)
Definition decimal (z : Z) : string := NilZero.string_of_int (Z.to_int z).

(** [IFNULL(CONCAT(sessions_registered, ?, ","), ?)]: CONCAT is NULL as soon
    as one argument is. *)
Definition ifnull_concat (current : option string) (sid : Z) : option string :=
  match current with
  | Some text => Some (text ++ decimal sid ++ ",")%string
  | None => Some (decimal sid)
  end.

(** [UPDATE participants SET sessions_registered = ... WHERE
    participant_id = ?] *)
Definition update_sessions_registered (sid pid : Z) (s : store) : store :=
  {| participants :=
       map (fun p =>
              if Participants.participant_id p =? pid
              then {| Participants.participant_id := Participants.participant_id p;
                      Participants.name := Participants.name p;
                      Participants.email := Participants.email p;
                      Participants.organization := Participants.organization p;
                      Participants.password_hash := Participants.password_hash p;
                      Participants.qr_code := Participants.qr_code p;
                      Participants.sessions_registered :=
                        ifnull_concat (Participants.sessions_registered p) sid |}
              else p)
           (participants s);
     participants_auto_increment := participants_auto_increment s;
     tracks_sessions := tracks_sessions s;
     attendance := attendance s;
     attendance_auto_increment := attendance_auto_increment s |}.

(** [SELECT COUNT( * ) FROM attendance WHERE session_id = ?] *)
Definition admitted_count (sid : Z) (s : store) : Z :=
  Z.of_nat (List.length (filter (fun a => Attendance.session_id a =? sid)
                           (attendance s))).

(** The row of line 243: [capacity] and [registered]. *)
Record capacity_row : Type := { capacity : Z; registered : Z }.

(** [SELECT capacity, (SELECT COUNT( * ) FROM attendance WHERE session_id = ?)
    AS registered FROM tracks_sessions WHERE session_id = ?] *)
Definition select_capacity_registered (sid : Z) (s : store)
  : list capacity_row :=
  map (fun t => {| capacity := TracksSessions.capacity t;
                   registered := admitted_count sid s |})
      (filter (fun t => TracksSessions.session_id t =? sid) (tracks_sessions s)).

(** [INSERT INTO attendance (participant_id, session_id) VALUES (?, ?)]:
    both foreign keys are checked; [check_in_time] is not among the columns
    and takes its default, NULL. *)
Definition insert_attendance (pid sid : Z) (s : store) : error + (Z * store) :=
  if negb (participant_exists pid s)
  then inl (ER_NO_REFERENCED_ROW "participant_id")
  else if negb (session_exists sid s)
  then inl (ER_NO_REFERENCED_ROW "session_id")
  else
    let insertId := attendance_auto_increment s in
    inr (insertId,
         {| participants := participants s;
            participants_auto_increment := participants_auto_increment s;
            tracks_sessions := tracks_sessions s;
            attendance :=
              attendance s ++
              [{| Attendance.attendance_id := insertId;
                  Attendance.participant_id := pid;
                  Attendance.session_id := sid;
                  Attendance.check_in_time := None |}];
            attendance_auto_increment := insertId + 1 |}).

(** ** The monad of a handler body *)

Inductive completion (A : Type) : Type :=
| Normal (a : A)
| Throw (e : error).
Arguments Normal {A} a.
Arguments Throw {A} e.

Definition io (A : Type) : Type := world -> completion A * world.

Definition ret {A : Type} (a : A) : io A := fun w => (Normal a, w).

Definition throw {A : Type} (e : error) : io A := fun w => (Throw e, w).

Definition bind {A B : Type} (c : io A) (k : A -> io B) : io B :=
  fun w =>
    match c w with
    | (Normal a, w') => k a w'
    | (Throw e, w') => (Throw e, w')
    end.

Declare Scope io_scope.
Delimit Scope io_scope with io.
Notation "x <- c ;; k" := (bind c (fun x => k))
  (at level 61, c at next level, right associativity) : io_scope.
Notation "c ;; k" := (bind c (fun _ => k))
  (at level 61, right associativity) : io_scope.
Local Open Scope io_scope.

Definition handler : Type := world -> response * world.

(** [console.error(error)] *)
Definition console_error (e : error) (w : world) : world :=
  {| db := db w; outbox := outbox w; console := console w ++ [e] |}.

(** [try { body } catch (error) { console.error(error);
    res.status(500).json({ error: msg }) }] *)
Definition try_catch (body : io response) (msg : string) : handler :=
  fun w =>
    match body w with
    | (Normal r, w') => (r, w')
    | (Throw e, w') =>
        ({| status := 500; body := json_error msg |}, console_error e w')
    end.

(** A query that reads. *)
Definition query {A : Type} (q : store -> A) : io A :=
  fun w => (Normal (q (db w)), w).

(** A statement that writes, or is rejected by a constraint. *)
Definition execute {A : Type} (q : store -> error + (A * store)) : io A :=
  fun w =>
    match q (db w) with
    | inr (a, s') => (Normal a, with_db w s')
    | inl e => (Throw e, w)
    end.

(** ** External collaborators

    bcrypt, the QR encoder and the SMTP transport are outside the
    repository; the handlers are verified for every behaviour of theirs. *)

Class Services : Type := {
  (** [bcrypt.hash(password, 10)] on a string *)
  bcrypt_hash : string -> string;
  (** [bcrypt.compare(password, hash)] on two strings *)
  bcrypt_compare : string -> string -> bool;
  (** [QRCode.toDataURL(data)]; [None] when the encoder rejects the data *)
  QRCode_toDataURL : string -> option string;
  (** whether the transport accepts the message *)
  smtp_accepts : mail -> bool;
  (** [process.env.MAILER_USERNAME] *)
  MAILER_USERNAME : string
}.

(** ** The route handlers *)

Definition newline : string := String (ascii_of_nat 10) EmptyString.
Definition dquote : string := String (ascii_of_nat 34) EmptyString.

Definition session_is_full : response :=
  {| status := 400; body := json_error "Session is full" |}.

Definition check_in_successful : response :=
  {| status := 200; body := json_message "Check-in successful" |}.

Definition invalid_email_or_password : response :=
  {| status := 401; body := json_error "Invalid email or password" |}.

Definition session_registration_successful : response :=
  {| status := 200; body := json_message "Session registration successful" |}.

Definition error_registering_participant : response :=
  {| status := 500; body := json_error "Error registering participant" |}.

(** [GET /participants], lines 130-138. *)
Definition get_participants : handler :=
  try_catch
    (rows <- query (fun s => map Participants.select_listing (participants s)) ;;
     ret {| status := 200; body := JArr rows |})
    "Error fetching participants".

(** [POST /register-session], lines 227-237. *)
Definition post_register_session (participant_id session_id : Z) : handler :=
  try_catch
    (execute (fun s =>
                inr (tt, update_sessions_registered session_id participant_id s)) ;;
     ret session_registration_successful)
    "Error registering for session".

(** [POST /check-in], lines 240-254.  The pattern [[[session]]] binds the
    first row, or [undefined] when there is none, and reading a property of
    [undefined] throws. *)
Definition post_check_in (participant_id session_id : Z) : handler :=
  try_catch
    (rows <- query (select_capacity_registered session_id) ;;
     match rows with
     | [] => throw (TypeError "Cannot read properties of undefined")
     | session :: _ =>
         if registered session >=? capacity session
         then ret session_is_full
         else
           execute (insert_attendance participant_id session_id) ;;
           ret check_in_successful
     end)
    "Error during check-in".

Section Handlers.
Context {svc : Services}.

(** [req.body.password] is [None] when the body has no such property;
    bcrypt rejects a missing argument. *)
Definition await_bcrypt_hash (password : option string) : io string :=
  match password with
  | Some p => ret (bcrypt_hash p)
  | None => throw (BcryptError "data and salt arguments required")
  end.

Definition await_bcrypt_compare (password : option string) (hash : string)
  : io bool :=
  match password with
  | Some p => ret (bcrypt_compare p hash)
  | None => throw (BcryptError "data and hash arguments required")
  end.

Definition await_toDataURL (data : string) : io string :=
  match QRCode_toDataURL data with
  | Some url => ret url
  | None => throw QRCodeError
  end.

Definition await_sendMail (m : mail) : io unit :=
  fun w =>
    if smtp_accepts m
    then (Normal tt,
          {| db := db w; outbox := outbox w ++ [m]; console := console w |})
    else (Throw SMTPError, w).

Definition registration_mail (email qrCode : string) : mail :=
  {| from := MAILER_USERNAME;
     to := email;
     subject := "Your Conference Registration QR Code";
     html := ("<h1>Welcome to the Conference!</h1><p>Here is your QR Code:</p><img src="
              ++ dquote ++ qrCode ++ dquote ++ " />")%string |}.

(** [POST /register], lines 184-206. *)
Definition post_register (name email : string) (password : option string)
  : handler :=
  try_catch
    (passwordHash <- await_bcrypt_hash password ;;
     let qrData := (name ++ newline ++ email)%string in
     qrCode <- await_toDataURL qrData ;;
     insertId <- execute (insert_participant name email passwordHash qrCode) ;;
     await_sendMail (registration_mail email qrCode) ;;
     ret {| status := 201;
            body := JObj [("message"%string, JStr "Registration successful");
                          ("participant_id"%string, JNum insertId)] |})
    "Error registering participant".

(** [POST /login], lines 209-224.  [rows[0]] is [undefined] on an empty
    result, and [||] does not evaluate its right operand then. *)
Definition post_login (email : string) (password : option string) : handler :=
  try_catch
    (rows <- query (select_participants_by_email email) ;;
     match rows with
     | [] => ret invalid_email_or_password
     | participant :: _ =>
         matches <- await_bcrypt_compare
                      password (Participants.password_hash participant) ;;
         if negb matches
         then ret invalid_email_or_password
         else ret {| status := 200;
                     body := JObj [("message"%string, JStr "Login successful");
                                   ("participant"%string,
                                    Participants.select_star participant)] |}
     end)
    "Error during login".
End Handlers.

(** ** Check-in requests in flight

    A handler gives the event loop back at each [await]: between the SELECT
    of line 243 and the INSERT of line 248 other requests run.  A request
    in flight waits for its SELECT ([Received]), waits for its INSERT
    ([Inserting]) or has answered ([Responded]); [check_in_step] lets the
    store answer the pending query and runs the handler up to the next
    one. *)

Inductive check_in_task : Type :=
| Received (participant_id session_id : Z)
| Inserting (participant_id session_id : Z)
| Responded (r : response).

Definition error_during_check_in : response :=
  {| status := 500; body := json_error "Error during check-in" |}.

Definition check_in_step (t : check_in_task) (w : world)
  : check_in_task * world :=
  match t with
  | Received participant_id session_id =>
      match select_capacity_registered session_id (db w) with
      | [] =>
          (Responded error_during_check_in,
           console_error (TypeError "Cannot read properties of undefined") w)
      | session :: _ =>
          if registered session >=? capacity session
          then (Responded session_is_full, w)
          else (Inserting participant_id session_id, w)
      end
  | Inserting participant_id session_id =>
      match insert_attendance participant_id session_id (db w) with
      | inr (_, s') => (Responded check_in_successful, with_db w s')
      | inl e => (Responded error_during_check_in, console_error e w)
      end
  | Responded r => (t, w)
  end.

Fixpoint set_nth {A : Type} (i : nat) (a : A) (l : list A) : list A :=
  match l, i with
  | [], _ => []
  | _ :: l', O => a :: l'
  | x :: l', S i' => x :: set_nth i' a l'
  end.

(** [run_schedule sched tasks w]: each entry of [sched] names the request
    whose pending query the store answers next. *)
Fixpoint run_schedule (sched : list nat) (tasks : list check_in_task)
  (w : world) : list check_in_task * world :=
  match sched with
  | [] => (tasks, w)
  | i :: sched' =>
      match nth_error tasks i with
      | Some t =>
          let (t', w') := check_in_step t w in
          run_schedule sched' (set_nth i t' tasks) w'
      | None => run_schedule sched' tasks w
      end
  end.

(** Requests served one after the other. *)
Definition serve_check_ins (reqs : list (Z * Z)) (w : world) : world :=
  fold_left (fun w' req => snd (post_check_in (fst req) (snd req) w')) reqs w.

(** ** Sample data *)

Definition sample_services : Services :=
  {| bcrypt_hash := fun p => ("$2b$10$" ++ p)%string;
     bcrypt_compare := fun p h => String.eqb ("$2b$10$" ++ p)%string h;
     QRCode_toDataURL := fun d => Some ("data:image/png;base64," ++ d)%string;
     smtp_accepts := fun _ => true;
     MAILER_USERNAME := "conference@example.org" |}.

Definition sample_services_smtp_down : Services :=
  {| bcrypt_hash := fun p => ("$2b$10$" ++ p)%string;
     bcrypt_compare := fun p h => String.eqb ("$2b$10$" ++ p)%string h;
     QRCode_toDataURL := fun d => Some ("data:image/png;base64," ++ d)%string;
     smtp_accepts := fun _ => false;
     MAILER_USERNAME := "conference@example.org" |}.

Definition ann : Participants.row :=
  {| Participants.participant_id := 1;
     Participants.name := "Ann";
     Participants.email := "ann@x.com";
     Participants.organization := None;
     Participants.password_hash := "$2b$10$pw";
     Participants.qr_code :=
       ("data:image/png;base64,Ann" ++ newline ++ "ann@x.com")%string;
     Participants.sessions_registered := None |}.

Definition bob : Participants.row :=
  {| Participants.participant_id := 2;
     Participants.name := "Bob";
     Participants.email := "bob@x.com";
     Participants.organization := None;
     Participants.password_hash := "$2b$10$pw2";
     Participants.qr_code :=
       ("data:image/png;base64,Bob" ++ newline ++ "bob@x.com")%string;
     Participants.sessions_registered := None |}.

(** A session with one seat and a session with two. *)
Definition keynote : TracksSessions.row :=
  {| TracksSessions.session_id := 1;
     TracksSessions.track := "Main";
     TracksSessions.session_name := "Keynote";
     TracksSessions.speaker := "Chair";
     TracksSessions.time := "2024-05-01 09:00:00";
     TracksSessions.venue := "Hall A";
     TracksSessions.capacity := 1 |}.

Definition workshop : TracksSessions.row :=
  {| TracksSessions.session_id := 2;
     TracksSessions.track := "Main";
     TracksSessions.session_name := "Workshop";
     TracksSessions.speaker := "Chair";
     TracksSessions.time := "2024-05-01 11:00:00";
     TracksSessions.venue := "Room 2";
     TracksSessions.capacity := 2 |}.

Definition empty_world : world :=
  {| db := {| participants := [];
              participants_auto_increment := 1;
              tracks_sessions := [];
              attendance := [];
              attendance_auto_increment := 1 |};
     outbox := [];
     console := [] |}.

Definition sample_world : world :=
  {| db := {| participants := [ann; bob];
              participants_auto_increment := 3;
              tracks_sessions := [keynote; workshop];
              attendance := [];
              attendance_auto_increment := 1 |};
     outbox := [];
     console := [] |}.

(** The store after [Register("Ann", "ann@x.com", "pw")] on an empty one. *)
Definition ann_registered_world : world :=
  snd (@post_register sample_services "Ann" "ann@x.com" (Some "pw"%string)
         empty_world).

(** Ann holds the only seat of the keynote. *)
Definition full_keynote_world : world :=
  {| db := {| participants := [ann; bob];
              participants_auto_increment := 3;
              tracks_sessions := [keynote; workshop];
              attendance :=
                [{| Attendance.attendance_id := 1;
                    Attendance.participant_id := 1;
                    Attendance.session_id := 1;
                    Attendance.check_in_time := None |}];
              attendance_auto_increment := 2 |};
     outbox := [];
     console := [] |}.

(** Ann holds one of the two seats of the workshop. *)
Definition ann_at_workshop_world : world :=
  {| db := {| participants := [ann; bob];
              participants_auto_increment := 3;
              tracks_sessions := [keynote; workshop];
              attendance :=
                [{| Attendance.attendance_id := 1;
                    Attendance.participant_id := 1;
                    Attendance.session_id := 2;
                    Attendance.check_in_time := None |}];
              attendance_auto_increment := 2 |};
     outbox := [];
     console := [] |}.

(** ** Derived notions used in the statements *)

(** Every session holds at most [capacity] attendance rows. *)
Definition within_capacity (s : store) : Prop :=
  forall S : TracksSessions.row,
    In S (tracks_sessions s) ->
    admitted_count (TracksSessions.session_id S) s <= TracksSessions.capacity S.

(** [session_id] is the primary key of the sessions table. *)
Definition sessions_keyed (s : store) : Prop :=
  NoDup (map TracksSessions.session_id (tracks_sessions s)).

(** The attendance rows of one (participant, session) pair. *)
Definition admissions_of (pid sid : Z) (s : store) : list Attendance.row :=
  filter (fun a => (Attendance.participant_id a =? pid)
                   && (Attendance.session_id a =? sid))
         (attendance s).

(** ** The catalog routes

    [/schedule], [/sessions] and [/sessions/:session_id] read and write
    [tracks_sessions].  The INSERT of line 160 names no [session_id]: the
    store assigns the key.  The store above keeps no counter for this
    table, so the key it assigns is an argument, [insertId], and the
    primary key rejects a value already in use. *)



(** [UPDATE tracks_sessions SET track = ?, session_name = ?, speaker = ?,
    time = ?, venue = ?, capacity = ? WHERE session_id = ?] *)
Definition update_tracks_sessions
  (track session_name speaker time venue : string) (capacity session_id : Z)
  (s : store) : store :=
  {| participants := participants s;
     participants_auto_increment := participants_auto_increment s;
     tracks_sessions :=
       map (fun t =>
              if TracksSessions.session_id t =? session_id
              then {| TracksSessions.session_id := TracksSessions.session_id t;
                      TracksSessions.track := track;
                      TracksSessions.session_name := session_name;
                      TracksSessions.speaker := speaker;
                      TracksSessions.time := time;
                      TracksSessions.venue := venue;
                      TracksSessions.capacity := capacity |}
              else t)
           (tracks_sessions s);
     attendance := attendance s;
     attendance_auto_increment := attendance_auto_increment s |}.

(** [INSERT INTO tracks_sessions (track, session_name, speaker, time, venue,
    capacity) VALUES (?, ?, ?, ?, ?, ?)] *)
Definition insert_tracks_sessions (insertId : Z)
  (track session_name speaker time venue : string) (capacity : Z)
  (s : store) : error + (Z * store) :=
  if session_exists insertId s
  then inl (ER_DUP_ENTRY "PRIMARY")
  else
    inr (insertId,
         {| participants := participants s;
            participants_auto_increment := participants_auto_increment s;
            tracks_sessions :=
              tracks_sessions s ++
              [{| TracksSessions.session_id := insertId;
                  TracksSessions.track := track;
                  TracksSessions.session_name := session_name;
                  TracksSessions.speaker := speaker;
                  TracksSessions.time := time;
                  TracksSessions.venue := venue;
                  TracksSessions.capacity := capacity |}];
            attendance := attendance s;
            attendance_auto_increment := attendance_auto_increment s |}).

(** [DELETE FROM tracks_sessions WHERE session_id = ?]; when a session row
    goes, the attendance rows that reference it go with it (ON DELETE
    CASCADE, line 70). *)
Definition delete_tracks_sessions (session_id : Z) (s : store) : store :=
  {| participants := participants s;
     participants_auto_increment := participants_auto_increment s;
     tracks_sessions :=
       filter (fun t => negb (TracksSessions.session_id t =? session_id))
              (tracks_sessions s);
     attendance :=
       if session_exists session_id s
       then filter (fun a => negb (Attendance.session_id a =? session_id))
                   (attendance s)
       else attendance s;
     attendance_auto_increment := attendance_auto_increment s |}.

Definition session_updated : response :=
  {| status := 200; body := json_message "Session updated successfully" |}.

Definition session_added : response :=
  {| status := 201; body := json_message "Session added successfully" |}.

Definition session_deleted : response :=
  {| status := 200; body := json_message "Session deleted successfully" |}.

Definition error_managing_session : response :=
  {| status := 500; body := json_error "Error managing session" |}.

(** [if (session_id)]: a missing [session_id] and the number 0 are falsy. *)
Definition truthy (session_id : option Z) : bool :=
  match session_id with
  | Some n => negb (n =? 0)
  | None => false
  end.

(** [POST /sessions], lines 152-168. *)
Definition post_sessions (insertId : Z) (session_id : option Z)
  (track session_name speaker time venue : string) (capacity : Z) : handler :=
  try_catch
    (match session_id with
     | Some sid =>
         if truthy session_id
         then
           execute (fun s =>
                      inr (tt, update_tracks_sessions
                                 track session_name speaker time venue
                                 capacity sid s)) ;;
           ret session_updated
         else
           execute (insert_tracks_sessions
                      insertId track session_name speaker time venue capacity) ;;
           ret session_added
     | None =>
         execute (insert_tracks_sessions
                    insertId track session_name speaker time venue capacity) ;;
         ret session_added
     end)
    "Error managing session".

(** [DELETE /sessions/:session_id], lines 171-181. *)
Definition delete_sessions (session_id : Z) : handler :=
  try_catch
    (execute (fun s => inr (tt, delete_tracks_sessions session_id s)) ;;
     ret session_deleted)
    "Error deleting session".

(** ** The proceedings routes

    They read and write the [proceedings] table and nothing else; the table
    and the console are their whole state. *)

Module Proceedings.
Record row : Type := {
  file_id : Z;
  file_name : string;
  file_path : string
}.

Definition select_star (f : row) : json :=
  JObj [("file_id"%string, JNum (file_id f));
        ("file_name"%string, JStr (file_name f));
        ("file_path"%string, JStr (file_path f))].
End Proceedings.

Record archive : Type := {
  proceedings : list Proceedings.row;
  proceedings_auto_increment : Z;
  archive_console : list error
}.

(** [req.file] as multer's [upload.single('file')] leaves it. *)
Record uploaded_file : Type := { originalname : string; filename : string }.

(** [POST /upload-proceedings], lines 260-270.  Without a file part
    [req.file] is [undefined] and the destructuring of line 262 throws. *)
Definition post_upload_proceedings (file : option uploaded_file) (a : archive)
  : response * archive :=
  match file with
  | None =>
      ({| status := 500; body := json_error "Error uploading proceedings" |},
       {| proceedings := proceedings a;
          proceedings_auto_increment := proceedings_auto_increment a;
          archive_console :=
            archive_console a
            ++ [TypeError "Cannot destructure property of undefined"] |})
  | Some f =>
      ({| status := 201;
          body := json_message "Proceedings uploaded successfully" |},
       {| proceedings :=
            proceedings a ++
            [{| Proceedings.file_id := proceedings_auto_increment a;
                Proceedings.file_name := originalname f;
                Proceedings.file_path := ("uploads/" ++ filename f)%string |}];
          proceedings_auto_increment := proceedings_auto_increment a + 1;
          archive_console := archive_console a |})
  end.

(** [GET /proceedings], lines 273-281. *)
Definition get_proceedings (a : archive) : response * archive :=
  ({| status := 200;
      body := JArr (map Proceedings.select_star (proceedings a)) |}, a).

(** ** Further notions used in the statements *)

(** The answers to a list of check-ins served one after the other. *)
Fixpoint check_in_responses (reqs : list (Z * Z)) (w : world)
  : list response * world :=
  match reqs with
  | [] => ([], w)
  | req :: reqs' =>
      let (r, w1) := post_check_in (fst req) (snd req) w in
      let (rs, w2) := check_in_responses reqs' w1 in
      (r :: rs, w2)
  end.

(** [email], [QR_code] and [participant_id] are keys of [participants], and
    the counter is past every key in use. *)
Definition participants_keyed (s : store) : Prop :=
  NoDup (map Participants.email (participants s))
  /\ NoDup (map Participants.qr_code (participants s))
  /\ NoDup (map Participants.participant_id (participants s))
  /\ Forall (fun p => Participants.participant_id p
                      < participants_auto_increment s)
            (participants s).

(** Every attendance row references a participant and a session. *)
Definition attendance_references (s : store) : Prop :=
  forall a : Attendance.row,
    In a (attendance s) ->
    participant_exists (Attendance.participant_id a) s = true
    /\ session_exists (Attendance.session_id a) s = true.

(** * Properties *)

(** ** Check-in: the handler, case by case *)

Lemma post_check_in_unfold (pid sid : Z) (w : world) :
  post_check_in pid sid w =
  match select_capacity_registered sid (db w) with
  | [] => (error_during_check_in,
           console_error (TypeError "Cannot read properties of undefined") w)
  | session :: _ =>
      if registered session >=? capacity session
      then (session_is_full, w)
      else match insert_attendance pid sid (db w) with
           | inr (_, s') => (check_in_successful, with_db w s')
           | inl e => (error_during_check_in, console_error e w)
           end
  end.
Proof.
  unfold post_check_in, try_catch, bind, query, execute, ret, throw.
  destruct (select_capacity_registered sid (db w)) as [|session rest];
    [reflexivity|].
  destruct (registered session >=? capacity session); [reflexivity|].
  destruct (insert_attendance pid sid (db w)) as [e|[i s']]; reflexivity.
Qed.

Lemma filter_absent_key {A : Type} (f : A -> Z) (k : Z) (l : list A) :
  ~ In k (map f l) -> filter (fun y => f y =? k) l = [].
Proof.
  induction l as [|a l IH]; simpl; intros Hk; [reflexivity|].
  destruct (Z.eqb_spec (f a) k) as [E|_].
  - exfalso. apply Hk. left. exact E.
  - apply IH. intros Hin. apply Hk. right. exact Hin.
Qed.

Lemma filter_primary_key {A : Type} (f : A -> Z) (l : list A) (x : A) :
  NoDup (map f l) -> In x l -> filter (fun y => f y =? f x) l = [x].
Proof.
  induction l as [|a l IH]; simpl; intros Hnd Hin; [contradiction|].
  inversion Hnd as [|k ks Hk Hnd']; subst.
  destruct Hin as [->|Hin].
  - rewrite Z.eqb_refl. f_equal. apply filter_absent_key. exact Hk.
  - destruct (Z.eqb_spec (f a) (f x)) as [E|_].
    + exfalso. apply Hk. rewrite E. apply in_map. exact Hin.
    + apply IH; assumption.
Qed.

(** With [session_id] a key, the SELECT of line 243 returns the one row of
    the session. *)
Lemma select_capacity_registered_keyed (s : store) (S : TracksSessions.row) :
  sessions_keyed s ->
  In S (tracks_sessions s) ->
  select_capacity_registered (TracksSessions.session_id S) s =
  [{| capacity := TracksSessions.capacity S;
      registered := admitted_count (TracksSessions.session_id S) s |}].
Proof.
  intros Hk Hin. unfold select_capacity_registered.
  rewrite (filter_primary_key TracksSessions.session_id _ S Hk Hin).
  reflexivity.
Qed.

Lemma insert_attendance_inr (pid sid i : Z) (s s' : store) :
  insert_attendance pid sid s = inr (i, s') ->
  participants s' = participants s /\
  tracks_sessions s' = tracks_sessions s /\
  attendance s' =
    attendance s ++
    [{| Attendance.attendance_id := attendance_auto_increment s;
        Attendance.participant_id := pid;
        Attendance.session_id := sid;
        Attendance.check_in_time := None |}].
Proof.
  unfold insert_attendance.
  destruct (negb (participant_exists pid s)); [discriminate|].
  destruct (negb (session_exists sid s)); [discriminate|].
  intros E. inversion E; subst. simpl. auto.
Qed.

Lemma admitted_count_app (sid : Z) (s s' : store) (a : Attendance.row) :
  attendance s' = attendance s ++ [a] ->
  admitted_count sid s' =
  admitted_count sid s + (if Attendance.session_id a =? sid then 1 else 0).
Proof.
  intros E. unfold admitted_count. rewrite E, filter_app, length_app. simpl.
  destruct (Attendance.session_id a =? sid); simpl; lia.
Qed.

(** One check-in keeps the sessions table and the capacity bound. *)
Lemma post_check_in_preserves (pid sid : Z) (w : world) :
  sessions_keyed (db w) ->
  within_capacity (db w) ->
  tracks_sessions (db (snd (post_check_in pid sid w))) = tracks_sessions (db w)
  /\ within_capacity (db (snd (post_check_in pid sid w))).
Proof.
  intros Hk Hcap. rewrite post_check_in_unfold.
  destruct (select_capacity_registered sid (db w)) as [|session rest] eqn:Hsel;
    [simpl; auto|].
  destruct (registered session >=? capacity session) eqn:Hfull; [simpl; auto|].
  destruct (insert_attendance pid sid (db w)) as [e|[i s']] eqn:Hins;
    [simpl; auto|].
  destruct (insert_attendance_inr _ _ _ _ _ Hins) as (_ & Hts & Hatt).
  simpl. split; [exact Hts|].
  intros S HS. rewrite Hts in HS.
  rewrite (admitted_count_app _ _ _ _ Hatt). simpl.
  destruct (Z.eqb_spec sid (TracksSessions.session_id S)) as [->|_].
  - rewrite (select_capacity_registered_keyed _ _ Hk HS) in Hsel.
    inversion Hsel; subst. simpl in Hfull. lia.
  - specialize (Hcap S HS). lia.
Qed.

(** Capacity bound of check-in, requests served one at a time: in
    a store where every session holds at most [capacity] attendance rows, a
    check-in to a session with [admitted_count + 1 > capacity] is answered
    400 "Session is full" and changes nothing, and after any sequence of
    check-ins every session still holds at most [capacity] rows. *)
Theorem check_in_capacity_invariant (w : world) :
  sessions_keyed (db w) ->
  within_capacity (db w) ->
  (forall (S : TracksSessions.row) (pid : Z),
      In S (tracks_sessions (db w)) ->
      admitted_count (TracksSessions.session_id S) (db w) + 1
        > TracksSessions.capacity S ->
      post_check_in pid (TracksSessions.session_id S) w = (session_is_full, w))
  /\ (forall reqs : list (Z * Z), within_capacity (db (serve_check_ins reqs w))).
Proof.
  intros Hk Hcap. split.
  - intros S pid HS Hover. rewrite post_check_in_unfold.
    rewrite (select_capacity_registered_keyed _ _ Hk HS). simpl.
    destruct (Z.geb_spec (admitted_count (TracksSessions.session_id S) (db w))
                         (TracksSessions.capacity S)); [reflexivity|lia].
  - intros reqs. revert w Hk Hcap. unfold serve_check_ins.
    induction reqs as [|[pid sid] reqs IH]; intros w Hk Hcap; simpl;
      [exact Hcap|].
    destruct (post_check_in_preserves pid sid w Hk Hcap) as [Hts Hcap'].
    apply IH; [|exact Hcap'].
    unfold sessions_keyed. rewrite Hts. exact Hk.
Qed.

Lemma check_in_capacity_invariant_witness :
  sessions_keyed (db full_keynote_world) /\
  within_capacity (db full_keynote_world) /\
  post_check_in 2 1 full_keynote_world = (session_is_full, full_keynote_world) /\
  within_capacity
    (db (serve_check_ins [(2, 1); (1, 2); (2, 2); (1, 2)] full_keynote_world)).
Proof.
  assert (Hk : sessions_keyed (db full_keynote_world)).
  { unfold sessions_keyed. simpl. repeat constructor; simpl.
    - intros [E|[]]; discriminate E.
    - intros []. }
  assert (Hc : within_capacity (db full_keynote_world)).
  { intros S [<-|[<-|[]]]; vm_compute; discriminate. }
  destruct (check_in_capacity_invariant full_keynote_world Hk Hc)
    as [Hfull Hseq].
  split; [exact Hk|]. split; [exact Hc|]. split.
  - apply (Hfull keynote 2); [left; reflexivity|vm_compute; reflexivity].
  - apply Hseq.
Defined.

(** ** Check-ins in flight *)

(** A request whose two queries run back to back is the handler of the
    sequential model. *)
Lemma check_in_steps_are_handler (pid sid : Z) (w : world) :
  run_schedule [0%nat; 0%nat] [Received pid sid] w =
  ([Responded (fst (post_check_in pid sid w))], snd (post_check_in pid sid w)).
Proof.
  rewrite post_check_in_unfold. simpl.
  destruct (select_capacity_registered sid (db w)) as [|session rest];
    [reflexivity|].
  destruct (registered session >=? capacity session); [reflexivity|].
  simpl.
  destruct (insert_attendance pid sid (db w)) as [e|[i s']]; reflexivity.
Qed.

Lemma session_exists_in (s : store) (S : TracksSessions.row) :
  In S (tracks_sessions s) ->
  session_exists (TracksSessions.session_id S) s = true.
Proof.
  intros HS. unfold session_exists. apply existsb_exists.
  exists S. split; [exact HS|apply Z.eqb_refl].
Qed.

Lemma step_received_free (pid : Z) (w : world) (S : TracksSessions.row) :
  sessions_keyed (db w) ->
  In S (tracks_sessions (db w)) ->
  admitted_count (TracksSessions.session_id S) (db w) < TracksSessions.capacity S ->
  check_in_step (Received pid (TracksSessions.session_id S)) w =
  (Inserting pid (TracksSessions.session_id S), w).
Proof.
  intros Hk HS Hfree. simpl.
  rewrite (select_capacity_registered_keyed _ _ Hk HS). simpl.
  destruct (Z.geb_spec (admitted_count (TracksSessions.session_id S) (db w))
                       (TracksSessions.capacity S)); [lia|reflexivity].
Qed.

Lemma step_received_full (pid : Z) (w : world) (S : TracksSessions.row) :
  sessions_keyed (db w) ->
  In S (tracks_sessions (db w)) ->
  TracksSessions.capacity S <= admitted_count (TracksSessions.session_id S) (db w) ->
  check_in_step (Received pid (TracksSessions.session_id S)) w =
  (Responded session_is_full, w).
Proof.
  intros Hk HS Hfull. simpl.
  rewrite (select_capacity_registered_keyed _ _ Hk HS). simpl.
  destruct (Z.geb_spec (admitted_count (TracksSessions.session_id S) (db w))
                       (TracksSessions.capacity S)); [reflexivity|lia].
Qed.

(** The INSERT of a request past the capacity test does not look at the
    count again. *)
Lemma step_inserting (pid sid : Z) (w : world) :
  participant_exists pid (db w) = true ->
  session_exists sid (db w) = true ->
  exists s',
    check_in_step (Inserting pid sid) w
      = (Responded check_in_successful, with_db w s')
    /\ participants s' = participants (db w)
    /\ tracks_sessions s' = tracks_sessions (db w)
    /\ admitted_count sid s' = admitted_count sid (db w) + 1.
Proof.
  intros Hp Hs. simpl.
  destruct (insert_attendance pid sid (db w)) as [e|[i s']] eqn:Hins.
  - unfold insert_attendance in Hins. rewrite Hp, Hs in Hins. discriminate.
  - exists s'. destruct (insert_attendance_inr _ _ _ _ _ Hins) as (HP & HT & HA).
    repeat split; try assumption.
    rewrite (admitted_count_app _ _ _ _ HA). simpl. rewrite Z.eqb_refl.
    reflexivity.
Qed.

(** Both requests read the count before either inserts: both are admitted
    and the session ends one over its capacity. *)
Lemma last_slot_race (w : world) (S : TracksSessions.row) (p1 p2 : Z) :
  sessions_keyed (db w) ->
  In S (tracks_sessions (db w)) ->
  participant_exists p1 (db w) = true ->
  participant_exists p2 (db w) = true ->
  admitted_count (TracksSessions.session_id S) (db w) + 1
    = TracksSessions.capacity S ->
  let sid := TracksSessions.session_id S in
  let out := run_schedule [0; 1; 0; 1]%nat [Received p1 sid; Received p2 sid] w in
  fst out = [Responded check_in_successful; Responded check_in_successful]
  /\ admitted_count sid (db (snd out)) = TracksSessions.capacity S + 1.
Proof.
  intros Hk HS Hp1 Hp2 Hslot sid out. subst out sid.
  assert (Hfree : admitted_count (TracksSessions.session_id S) (db w)
                  < TracksSessions.capacity S) by lia.
  cbn [run_schedule nth_error set_nth].
  rewrite (step_received_free p1 w S Hk HS Hfree).
  cbn [run_schedule nth_error set_nth].
  rewrite (step_received_free p2 w S Hk HS Hfree).
  cbn [run_schedule nth_error set_nth].
  destruct (step_inserting p1 _ w Hp1 (session_exists_in _ _ HS))
    as (s1 & E1 & HP1 & HT1 & HC1).
  rewrite E1. cbn [run_schedule nth_error set_nth].
  assert (Hp2' : participant_exists p2 (db (with_db w s1)) = true).
  { unfold participant_exists. simpl. rewrite HP1. exact Hp2. }
  assert (HS' : session_exists (TracksSessions.session_id S) (db (with_db w s1))
                = true).
  { unfold session_exists. simpl. rewrite HT1.
    exact (session_exists_in _ _ HS). }
  destruct (step_inserting p2 _ (with_db w s1) Hp2' HS')
    as (s2 & E2 & _ & _ & HC2).
  rewrite E2. cbn [fst snd]. split; [reflexivity|].
  simpl in *. lia.
Qed.

(** Served one after the other, the second request finds the session full. *)
Lemma last_slot_serial (w : world) (S : TracksSessions.row) (p1 p2 : Z) :
  sessions_keyed (db w) ->
  In S (tracks_sessions (db w)) ->
  participant_exists p1 (db w) = true ->
  admitted_count (TracksSessions.session_id S) (db w) + 1
    = TracksSessions.capacity S ->
  let sid := TracksSessions.session_id S in
  let out := run_schedule [0; 0; 1; 1]%nat [Received p1 sid; Received p2 sid] w in
  fst out = [Responded check_in_successful; Responded session_is_full]
  /\ admitted_count sid (db (snd out)) = TracksSessions.capacity S.
Proof.
  intros Hk HS Hp1 Hslot sid out. subst out sid.
  assert (Hfree : admitted_count (TracksSessions.session_id S) (db w)
                  < TracksSessions.capacity S) by lia.
  cbn [run_schedule nth_error set_nth].
  rewrite (step_received_free p1 w S Hk HS Hfree).
  cbn [run_schedule nth_error set_nth].
  destruct (step_inserting p1 _ w Hp1 (session_exists_in _ _ HS))
    as (s1 & E1 & HP1 & HT1 & HC1).
  rewrite E1. cbn [run_schedule nth_error set_nth].
  assert (Hk' : sessions_keyed (db (with_db w s1))).
  { unfold sessions_keyed. simpl. rewrite HT1. exact Hk. }
  assert (HS' : In S (tracks_sessions (db (with_db w s1)))).
  { simpl. rewrite HT1. exact HS. }
  rewrite (step_received_full p2 (with_db w s1) S Hk' HS');
    [|simpl; lia].
  cbn [run_schedule nth_error set_nth check_in_step fst snd].
  split; [reflexivity|]. simpl. lia.
Qed.

(** C2.  Two check-ins racing for the last seat: the keynote has capacity 1
    and no attendance row; the requests of Ann and Bob each run their
    SELECT before either runs its INSERT.  Both are answered 200 "Check-in
    successful" and the session holds two rows. *)
Theorem check_in_last_slot_race :
  admitted_count 1 (db sample_world) + 1 = TracksSessions.capacity keynote /\
  run_schedule [0; 1; 0; 1]%nat [Received 1 1; Received 2 1] sample_world =
  ([Responded check_in_successful; Responded check_in_successful],
   {| db := {| participants := [ann; bob];
               participants_auto_increment := 3;
               tracks_sessions := [keynote; workshop];
               attendance :=
                 [{| Attendance.attendance_id := 1;
                     Attendance.participant_id := 1;
                     Attendance.session_id := 1;
                     Attendance.check_in_time := None |};
                  {| Attendance.attendance_id := 2;
                     Attendance.participant_id := 2;
                     Attendance.session_id := 1;
                     Attendance.check_in_time := None |}];
               attendance_auto_increment := 3 |};
      outbox := [];
      console := [] |}).
Proof. split; reflexivity. Qed.

(** C1.  The capacity bound is not kept when check-ins overlap: the sample
    store keeps it (the keynote has capacity 1 and no attendance row), the
    check-ins of Ann and Bob to the keynote each run their SELECT before
    either runs its INSERT, both are answered 200 "Check-in successful",
    no check-in is answered 400 although the second INSERT is made at
    [admitted_count + 1 > capacity], and the keynote ends with 2 attendance
    rows: the store no longer keeps the bound. *)
Theorem check_in_capacity_overrun :
  sessions_keyed (db sample_world) /\
  within_capacity (db sample_world) /\
  let out := run_schedule [0; 1; 0; 1]%nat [Received 1 1; Received 2 1]
               sample_world in
  fst out = [Responded check_in_successful; Responded check_in_successful] /\
  TracksSessions.capacity keynote = 1 /\
  admitted_count (TracksSessions.session_id keynote) (db (snd out)) = 2 /\
  ~ within_capacity (db (snd out)).
Proof.
  split.
  { unfold sessions_keyed. simpl. repeat constructor; simpl.
    - intros [E|[]]; discriminate E.
    - intros []. }
  split.
  - intros session [<-|[<-|[]]]; vm_compute; discriminate.
  - cbv zeta. split; [reflexivity|]. split; [reflexivity|].
    split; [reflexivity|].
    intros Hbound. specialize (Hbound keynote (or_introl eq_refl)).
    vm_compute in Hbound. apply Hbound. reflexivity.
Qed.

(** ** Check-in: repeated pairs, and what a success leaves behind *)

Lemma admissions_of_app (pid sid : Z) (s s' : store) (a : Attendance.row) :
  attendance s' = attendance s ++ [a] ->
  Attendance.participant_id a = pid ->
  Attendance.session_id a = sid ->
  List.length (admissions_of pid sid s')
  = (List.length (admissions_of pid sid s) + 1)%nat.
Proof.
  intros E Hp Hs. unfold admissions_of. rewrite E, filter_app, length_app.
  simpl. rewrite Hp, Hs, !Z.eqb_refl. reflexivity.
Qed.

(** C3 (as stated, refuted).  Ann checks in to the workshop (two seats)
    twice: both calls are answered 200 "Check-in successful" and the pair
    has two attendance rows. *)
Lemma check_in_twice_counterexample :
  let (r1, w1) := post_check_in 1 2 sample_world in
  let (r2, w2) := post_check_in 1 2 w1 in
  r1 = check_in_successful /\
  r2 = check_in_successful /\
  List.length (admissions_of 1 2 (db w2)) = 2%nat.
Proof. vm_compute. repeat split. Qed.

(** C3 (amended).  A check-in for a pair that already has an attendance
    row is treated like any other: while the session has a free seat it is
    answered 200 "Check-in successful" and the pair gets one more row; once
    the session is full it is answered 400 "Session is full" and nothing
    changes. *)
Theorem check_in_repeat_admits_again
  (w : world) (session : TracksSessions.row) (pid : Z) :
  sessions_keyed (db w) ->
  In session (tracks_sessions (db w)) ->
  participant_exists pid (db w) = true ->
  admissions_of pid (TracksSessions.session_id session) (db w) <> [] ->
  let sid := TracksSessions.session_id session in
  (admitted_count sid (db w) < TracksSessions.capacity session ->
   fst (post_check_in pid sid w) = check_in_successful /\
   List.length (admissions_of pid sid (db (snd (post_check_in pid sid w))))
   = (List.length (admissions_of pid sid (db w)) + 1)%nat)
  /\ (TracksSessions.capacity session <= admitted_count sid (db w) ->
      post_check_in pid sid w = (session_is_full, w)).
Proof.
  intros Hk HS Hp _ sid. subst sid.
  rewrite post_check_in_unfold.
  rewrite (select_capacity_registered_keyed _ _ Hk HS). simpl.
  destruct (Z.geb_spec
              (admitted_count (TracksSessions.session_id session) (db w))
              (TracksSessions.capacity session)) as [Hfull|Hfree].
  - split; [lia|reflexivity].
  - split; [|lia]. intros _.
    destruct (insert_attendance pid (TracksSessions.session_id session) (db w))
      as [e|[i s']] eqn:Hins.
    + unfold insert_attendance in Hins.
      rewrite Hp, (session_exists_in _ _ HS) in Hins. discriminate.
    + destruct (insert_attendance_inr _ _ _ _ _ Hins) as (_ & _ & HA).
      simpl. split; [reflexivity|].
      apply (admissions_of_app _ _ _ _ _ HA); reflexivity.
Qed.

Lemma sample_sessions_keyed (ps : list Participants.row) (n m : Z)
  (att : list Attendance.row) :
  sessions_keyed {| participants := ps;
                    participants_auto_increment := n;
                    tracks_sessions := [keynote; workshop];
                    attendance := att;
                    attendance_auto_increment := m |}.
Proof.
  unfold sessions_keyed. simpl. repeat constructor; simpl.
  - intros [E|[]]; discriminate E.
  - intros [].
Defined.

Lemma check_in_repeat_admits_again_witness :
  admissions_of 1 2 (db ann_at_workshop_world) <> [] /\
  admitted_count 2 (db ann_at_workshop_world) < TracksSessions.capacity workshop /\
  fst (post_check_in 1 2 ann_at_workshop_world) = check_in_successful /\
  List.length
    (admissions_of 1 2 (db (snd (post_check_in 1 2 ann_at_workshop_world))))
  = 2%nat.
Proof.
  assert (Hrow : admissions_of 1 2 (db ann_at_workshop_world) <> [])
    by (vm_compute; discriminate).
  assert (Hfree : admitted_count 2 (db ann_at_workshop_world)
                  < TracksSessions.capacity workshop) by reflexivity.
  destruct (check_in_repeat_admits_again ann_at_workshop_world workshop 1
              (sample_sessions_keyed _ _ _ _)
              (or_intror (or_introl eq_refl)) eq_refl Hrow) as [Hadmit _].
  destruct (Hadmit Hfree) as [Hr Hn].
  repeat split; assumption.
Defined.

(** C5 (as stated, refuted).  Ann checks in to the keynote and is answered
    200; the row the INSERT of line 247 wrote names no [check_in_time], so
    the column is NULL, and the body of the answer is the message, not the
    row. *)
Lemma check_in_record_counterexample :
  let (r, w') := post_check_in 1 1 sample_world in
  status r = 200 /\
  forall a : Attendance.row,
    In a (attendance (db w')) ->
    Attendance.check_in_time a = None /\ body r <> Attendance.select_star a.
Proof.
  vm_compute. split; [reflexivity|].
  intros a [<-|[]]. split; [reflexivity|discriminate].
Qed.

(** C5 (amended).  A check-in answered 200 has added exactly one attendance
    row, for the pair of the request, and nothing else; what the caller
    receives is the message "Check-in successful". *)
Theorem check_in_success_inserts_one_row (pid sid : Z) (w : world) :
  status (fst (post_check_in pid sid w)) = 200 ->
  fst (post_check_in pid sid w) = check_in_successful /\
  exists a : Attendance.row,
    attendance (db (snd (post_check_in pid sid w))) = attendance (db w) ++ [a]
    /\ Attendance.participant_id a = pid
    /\ Attendance.session_id a = sid
    /\ participants (db (snd (post_check_in pid sid w))) = participants (db w)
    /\ tracks_sessions (db (snd (post_check_in pid sid w)))
       = tracks_sessions (db w)
    /\ outbox (snd (post_check_in pid sid w)) = outbox w
    /\ console (snd (post_check_in pid sid w)) = console w.
Proof.
  rewrite post_check_in_unfold.
  destruct (select_capacity_registered sid (db w)) as [|session rest];
    [discriminate|].
  destruct (registered session >=? capacity session); [discriminate|].
  destruct (insert_attendance pid sid (db w)) as [e|[i s']] eqn:Hins;
    [discriminate|].
  intros _. destruct (insert_attendance_inr _ _ _ _ _ Hins) as (HP & HT & HA).
  simpl. split; [reflexivity|].
  eexists. split; [exact HA|]. simpl.
  repeat split; try reflexivity; assumption.
Qed.

Lemma check_in_success_inserts_one_row_witness :
  status (fst (post_check_in 2 2 ann_at_workshop_world)) = 200 /\
  fst (post_check_in 2 2 ann_at_workshop_world) = check_in_successful /\
  exists a : Attendance.row,
    attendance (db (snd (post_check_in 2 2 ann_at_workshop_world)))
    = attendance (db ann_at_workshop_world) ++ [a]
    /\ Attendance.participant_id a = 2
    /\ Attendance.session_id a = 2.
Proof.
  assert (Hok : status (fst (post_check_in 2 2 ann_at_workshop_world)) = 200)
    by reflexivity.
  destruct (check_in_success_inserts_one_row 2 2 ann_at_workshop_world Hok)
    as (Hr & a & Ha & Hp & Hs & _).
  split; [exact Hok|]. split; [exact Hr|].
  exists a. repeat split; assumption.
Defined.

(** ** Registering for a session *)

Lemma post_register_session_unfold (pid sid : Z) (w : world) :
  post_register_session pid sid w =
  (session_registration_successful,
   with_db w (update_sessions_registered sid pid (db w))).
Proof. reflexivity. Qed.

Lemma string_length_append (a b : string) :
  String.length (a ++ b) = (String.length a + String.length b)%nat.
Proof.
  induction a as [|c a IH]; simpl; [reflexivity|]. rewrite IH. reflexivity.
Qed.

Lemma append_grows (text suffix : string) :
  (text ++ suffix ++ ",")%string <> text.
Proof.
  intros E. apply (f_equal String.length) in E.
  rewrite !string_length_append in E. simpl in E. lia.
Qed.

Lemma participant_exists_nth (pid : Z) (s : store) :
  participant_exists pid s = true ->
  exists i p, nth_error (participants s) i = Some p
              /\ Participants.participant_id p = pid.
Proof.
  unfold participant_exists. intros H.
  apply existsb_exists in H. destruct H as (p & Hin & Hid).
  apply In_nth_error in Hin. destruct Hin as [i Hi].
  exists i, p. split; [exact Hi|]. apply Z.eqb_eq. exact Hid.
Qed.

(** After the UPDATE of line 230, a row of the participant holds the text
    [IFNULL(CONCAT(...), ...)] makes of what it held. *)
Lemma update_sessions_registered_nth (sid pid : Z) (s : store) (i : nat)
  (p : Participants.row) :
  nth_error (participants s) i = Some p ->
  Participants.participant_id p = pid ->
  exists p',
    nth_error (participants (update_sessions_registered sid pid s)) i = Some p'
    /\ Participants.participant_id p' = pid
    /\ Participants.sessions_registered p'
       = ifnull_concat (Participants.sessions_registered p) sid.
Proof.
  intros Hi Hid. simpl. rewrite nth_error_map, Hi. simpl.
  rewrite Hid, Z.eqb_refl. eexists. split; [reflexivity|]. simpl. auto.
Qed.

Lemma update_sessions_registered_nth_inv (sid pid : Z) (s : store) (i : nat)
  (p' : Participants.row) :
  nth_error (participants (update_sessions_registered sid pid s)) i = Some p' ->
  Participants.participant_id p' = pid ->
  exists p,
    nth_error (participants s) i = Some p
    /\ Participants.participant_id p = pid
    /\ Participants.sessions_registered p'
       = ifnull_concat (Participants.sessions_registered p) sid.
Proof.
  simpl. rewrite nth_error_map.
  destruct (nth_error (participants s) i) as [p|]; simpl; [|discriminate].
  destruct (Z.eqb_spec (Participants.participant_id p) pid) as [E|N];
    intros H Hid; inversion H; subst; simpl in *.
  - exists p. auto.
  - contradiction.
Qed.

(** C4 (as stated, refuted).  Ann registers for session 5 twice: after the
    first call her [sessions_registered] is "5", after the second "55,". *)
Lemma register_session_twice_counterexample :
  let w1 := snd (post_register_session 1 5 sample_world) in
  let w2 := snd (post_register_session 1 5 w1) in
  map Participants.sessions_registered (participants (db w1))
  = [Some "5"%string; None] /\
  map Participants.sessions_registered (participants (db w2))
  = [Some "55,"%string; None] /\
  w2 <> w1.
Proof.
  vm_compute. repeat split. discriminate.
Qed.

(** A call for an existing participant always changes the store. *)
Lemma register_session_changes_existing (w : world) (pid sid : Z) :
  participant_exists pid (db w) = true ->
  db (snd (post_register_session pid sid w)) <> db w.
Proof.
  intros Hp E. rewrite post_register_session_unfold in E. simpl in E.
  destruct (participant_exists_nth _ _ Hp) as (i & p & Hi & Hid).
  destruct (update_sessions_registered_nth sid pid (db w) i p Hi Hid)
    as (p' & Hi' & _ & Hsr).
  rewrite E, Hi in Hi'. inversion Hi'; subst p'.
  destruct (Participants.sessions_registered p) as [text|] eqn:Htext;
    simpl in Hsr; [|discriminate].
  inversion Hsr as [Hgrow]. symmetry in Hgrow.
  exact (append_grows _ _ Hgrow).
Qed.

Lemma participant_exists_update (sid pid q : Z) (s : store) :
  participant_exists q (update_sessions_registered sid pid s)
  = participant_exists q s.
Proof.
  unfold participant_exists. simpl.
  induction (participants s) as [|p l IH]; simpl; [reflexivity|].
  rewrite IH. f_equal.
  destruct (Participants.participant_id p =? pid); reflexivity.
Qed.

(** C4 (amended).  Registering for a session is not idempotent: for an
    existing participant, the second of two consecutive calls with the same
    pair is answered 200 "Session registration successful" like the first,
    and the store after two calls is never the store after one; when the
    session id is a safe integer, what the second call appends to
    [sessions_registered] is the decimal text of the id and a comma, once
    more. *)
Theorem register_session_appends_again (w : world) (pid sid : Z) :
  participant_exists pid (db w) = true ->
  let w1 := snd (post_register_session pid sid w) in
  let w2 := snd (post_register_session pid sid w1) in
  fst (post_register_session pid sid w1) = session_registration_successful /\
  db w2 <> db w1 /\
  (isSafeInteger sid = true ->
   forall (i : nat) (p1 : Participants.row),
     nth_error (participants (db w1)) i = Some p1 ->
     Participants.participant_id p1 = pid ->
     exists (text : string) (p2 : Participants.row),
       Participants.sessions_registered p1 = Some text /\
       nth_error (participants (db w2)) i = Some p2 /\
       Participants.sessions_registered p2
       = Some (text ++ decimal sid ++ ",")%string).
Proof.
  intros Hp w1 w2. split; [reflexivity|]. split.
  - apply register_session_changes_existing.
    subst w1. rewrite post_register_session_unfold. simpl db.
    rewrite participant_exists_update. exact Hp.
  - intros _ i p1 Hi Hid. subst w2 w1.
    rewrite !post_register_session_unfold in *. simpl db in *.
    destruct (update_sessions_registered_nth_inv sid pid (db w) i p1 Hi Hid)
      as (p & _ & _ & Hsr).
    destruct (update_sessions_registered_nth sid pid _ i p1 Hi Hid)
      as (p2 & Hi2 & _ & Hsr2).
    assert (Htext : exists text,
               Participants.sessions_registered p1 = Some text).
    { rewrite Hsr. destruct (Participants.sessions_registered p);
        simpl; eexists; reflexivity. }
    destruct Htext as [text Htext].
    exists text, p2. split; [exact Htext|]. split; [exact Hi2|].
    rewrite Hsr2, Htext. reflexivity.
Qed.

Lemma register_session_appends_again_witness :
  let w1 := snd (post_register_session 1 5 sample_world) in
  let w2 := snd (post_register_session 1 5 w1) in
  participant_exists 1 (db sample_world) = true /\
  db w2 <> db w1 /\
  isSafeInteger 5 = true /\
  exists (text : string) (p2 : Participants.row),
    Some "5"%string = Some text /\
    nth_error (participants (db w2)) 0 = Some p2 /\
    Participants.sessions_registered p2 = Some (text ++ decimal 5 ++ ",")%string.
Proof.
  intros w1 w2.
  destruct (register_session_appends_again sample_world 1 5 eq_refl)
    as (_ & Hchanged & Htext).
  split; [reflexivity|]. split; [exact Hchanged|]. split; [reflexivity|].
  exact (Htext eq_refl 0%nat
           {| Participants.participant_id := 1;
              Participants.name := "Ann";
              Participants.email := "ann@x.com";
              Participants.organization := None;
              Participants.password_hash := "$2b$10$pw";
              Participants.qr_code :=
                ("data:image/png;base64,Ann" ++ newline ++ "ann@x.com")%string;
              Participants.sessions_registered := Some "5"%string |}
           eq_refl eq_refl).
Defined.





(** ** Identity: listing, login and registration *)

Section Identity.
Context {svc : Services}.

Lemma select_listing_omits_password_hash (p : Participants.row) :
  has_key "password_hash" (Participants.select_listing p) = false.
Proof.
  unfold Participants.select_listing. simpl.
  destruct (Participants.sessions_registered p); reflexivity.
Qed.

(** The listing selects four columns, and [password_hash] is not one. *)
Lemma get_participants_omits_password_hash (w : world) :
  has_key "password_hash" (body (fst (get_participants w))) = false.
Proof.
  unfold get_participants, try_catch, bind, query, ret. simpl.
  induction (participants (db w)) as [|p ps IH]; [reflexivity|].
  cbn [map existsb]. rewrite select_listing_omits_password_hash. exact IH.
Qed.

Lemma post_login_unfold (email : string) (password : option string)
  (w : world) :
  post_login email password w =
  match select_participants_by_email email (db w) with
  | [] => (invalid_email_or_password, w)
  | participant :: _ =>
      match password with
      | None =>
          ({| status := 500; body := json_error "Error during login" |},
           console_error (BcryptError "data and hash arguments required") w)
      | Some p =>
          if bcrypt_compare p (Participants.password_hash participant)
          then ({| status := 200;
                   body := JObj [("message"%string, JStr "Login successful");
                                 ("participant"%string,
                                  Participants.select_star participant)] |},
                w)
          else (invalid_email_or_password, w)
      end
  end.
Proof.
  unfold post_login, try_catch, bind, query, ret, await_bcrypt_compare, throw.
  destruct (select_participants_by_email email (db w)) as [|q rest];
    [reflexivity|].
  destruct password as [p|]; [|reflexivity].
  destruct (bcrypt_compare p (Participants.password_hash q)); reflexivity.
Qed.

(** Every successful login answers with all the columns of the row. *)
Lemma login_success_exposes_password_hash (email : string)
  (password : option string) (w : world) :
  status (fst (post_login email password w)) = 200 ->
  has_key "password_hash" (body (fst (post_login email password w))) = true.
Proof.
  rewrite post_login_unfold.
  destruct (select_participants_by_email email (db w)) as [|q rest];
    [discriminate|].
  destruct password as [p|]; [|discriminate].
  destruct (bcrypt_compare p (Participants.password_hash q));
    [|discriminate].
  intros _. simpl.
  destruct (Participants.organization q); reflexivity.
Qed.


End Identity.


(** C6.  The login of Ann with her password is answered 200 with the whole
    row of [SELECT *], [password_hash] included, while the listing of the
    same store leaves it out. *)
Theorem login_exposes_password_hash :
  @post_login sample_services "ann@x.com" (Some "pw"%string) sample_world
  = ({| status := 200;
        body := JObj [("message"%string, JStr "Login successful");
                      ("participant"%string, Participants.select_star ann)] |},
     sample_world) /\
  has_key "password_hash"
    (body (fst (@post_login sample_services "ann@x.com" (Some "pw"%string)
                  sample_world))) = true /\
  has_key "password_hash" (body (fst (get_participants sample_world))) = false.
Proof. repeat split. Qed.

Section Registration.
Context {svc : Services}.

(** The statement of line 192 either is rejected and leaves the store as it
    was, or appends one row holding the values of the request. *)
Lemma insert_participant_cases (n e h q : string) (s : store) :
  (exists err, insert_participant n e h q s = inl err)
  \/ (exists s',
        insert_participant n e h q s = inr (participants_auto_increment s, s')
        /\ exists p, participants s' = participants s ++ [p]
                     /\ Participants.email p = e
                     /\ Participants.name p = n
                     /\ Participants.password_hash p = h).
Proof.
  unfold insert_participant.
  destruct (existsb _ (participants s)); [left; eexists; reflexivity|].
  destruct (existsb _ (participants s)); [left; eexists; reflexivity|].
  right. eexists. split; [reflexivity|]. eexists. simpl.
  split; [reflexivity|]. simpl. auto.
Qed.

Lemma insert_participant_duplicate_email (n e h q : string) (s : store) :
  (exists p, In p (participants s) /\ Participants.email p = e) ->
  insert_participant n e h q s = inl (ER_DUP_ENTRY "email").
Proof.
  intros (p & Hin & He). unfold insert_participant.
  replace (existsb (fun p0 => String.eqb (Participants.email p0) e)
                   (participants s)) with true; [reflexivity|].
  symmetry. apply existsb_exists. exists p. split; [exact Hin|].
  apply String.eqb_eq. exact He.
Qed.

Lemma post_register_unfold (name email : string) (password : option string)
  (w : world) :
  post_register name email password w =
  match password with
  | None =>
      (error_registering_participant,
       console_error (BcryptError "data and salt arguments required") w)
  | Some p =>
      match QRCode_toDataURL (name ++ newline ++ email) with
      | None => (error_registering_participant, console_error QRCodeError w)
      | Some qrCode =>
          match insert_participant name email (bcrypt_hash p) qrCode (db w) with
          | inl e => (error_registering_participant, console_error e w)
          | inr (insertId, s') =>
              if smtp_accepts (registration_mail email qrCode)
              then ({| status := 201;
                       body := JObj [("message"%string,
                                      JStr "Registration successful");
                                     ("participant_id"%string, JNum insertId)] |},
                    {| db := s';
                       outbox := outbox w ++ [registration_mail email qrCode];
                       console := console w |})
              else (error_registering_participant,
                    {| db := s';
                       outbox := outbox w;
                       console := console w ++ [SMTPError] |})
          end
      end
  end.
Proof.
  unfold post_register, try_catch, bind, execute,
    await_bcrypt_hash, await_toDataURL, await_sendMail, throw, ret.
  destruct password as [p|]; [|reflexivity].
  destruct (QRCode_toDataURL (name ++ newline ++ email)) as [qr|];
    [|reflexivity].
  cbv beta iota zeta.
  destruct (insert_participant name email (bcrypt_hash p) qr (db w))
    as [e|[i s']]; [reflexivity|].
  cbv beta iota zeta.
  destruct (smtp_accepts (registration_mail email qr)); reflexivity.
Qed.

(** Whatever makes the body of [/register] throw, the answer is the same. *)
Lemma post_register_answers (name email : string) (password : option string)
  (w : world) :
  status (fst (post_register name email password w)) = 201
  \/ fst (post_register name email password w) = error_registering_participant.
Proof.
  rewrite post_register_unfold.
  destruct password as [p|]; [|right; reflexivity].
  destruct (QRCode_toDataURL (name ++ newline ++ email)) as [qr|];
    [|right; reflexivity].
  destruct (insert_participant name email (bcrypt_hash p) qr (db w))
    as [e|[i s']]; [right; reflexivity|].
  destruct (smtp_accepts (registration_mail email qr));
    [left|right]; reflexivity.
Qed.

(** A registration answered 201 has stored a participant with the email. *)
Lemma post_register_201_stores (name email : string) (password : option string)
  (w : world) :
  status (fst (post_register name email password w)) = 201 ->
  exists p, In p (participants (db (snd (post_register name email password w))))
            /\ Participants.email p = email.
Proof.
  rewrite post_register_unfold.
  destruct password as [pw|]; [|discriminate].
  destruct (QRCode_toDataURL (name ++ newline ++ email)) as [qr|];
    [|discriminate].
  destruct (insert_participant_cases name email (bcrypt_hash pw) qr (db w))
    as [[err E]|(s' & E & p & Hps & He & _)]; rewrite E; [discriminate|].
  destruct (smtp_accepts (registration_mail email qr)); [|discriminate].
  intros _. exists p. simpl. rewrite Hps. split; [|exact He].
  apply in_or_app. right. left. reflexivity.
Qed.

(** A registration with an email already on file stops at the INSERT. *)
Lemma post_register_duplicate_email (name email : string)
  (password : option string) (w : world) :
  (exists p, In p (participants (db w)) /\ Participants.email p = email) ->
  fst (post_register name email password w) = error_registering_participant
  /\ participants (db (snd (post_register name email password w)))
     = participants (db w)
  /\ tracks_sessions (db (snd (post_register name email password w)))
     = tracks_sessions (db w)
  /\ attendance (db (snd (post_register name email password w)))
     = attendance (db w)
  /\ outbox (snd (post_register name email password w)) = outbox w.
Proof.
  intros Hdup. rewrite post_register_unfold.
  destruct password as [pw|]; [|repeat split].
  destruct (QRCode_toDataURL (name ++ newline ++ email)) as [qr|];
    [|repeat split].
  rewrite (insert_participant_duplicate_email _ _ _ _ _ Hdup).
  repeat split.
Qed.

(** C7 (amended).  Of two registrations with the same email, the first
    answered 201, the second is answered 500 "Error registering
    participant", the answer of every failed registration; it adds no
    participant, leaves the rows of the store as the first call left them
    and sends no mail. *)
Theorem register_duplicate_email_rejected
  (w : world) (name1 name2 email : string) (password1 password2 : option string) :
  status (fst (post_register name1 email password1 w)) = 201 ->
  let w1 := snd (post_register name1 email password1 w) in
  let w2 := snd (post_register name2 email password2 w1) in
  fst (post_register name2 email password2 w1) = error_registering_participant
  /\ participants (db w2) = participants (db w1)
  /\ tracks_sessions (db w2) = tracks_sessions (db w1)
  /\ attendance (db w2) = attendance (db w1)
  /\ outbox w2 = outbox w1.
Proof.
  intros H201 w1 w2.
  exact (post_register_duplicate_email name2 email password2 w1
           (post_register_201_stores _ _ _ _ H201)).
Qed.

(** C8 (amended).  When the participant row is stored and the transport
    then rejects the mail, the row stays (one participant more, with the
    email of the request), the error is written to the console, and the
    caller is answered 500 "Error registering participant". *)
Theorem register_mail_failure_reported
  (w : world) (name email password qrCode : string) (insertId : Z) (s' : store) :
  QRCode_toDataURL (name ++ newline ++ email) = Some qrCode ->
  insert_participant name email (bcrypt_hash password) qrCode (db w)
  = inr (insertId, s') ->
  smtp_accepts (registration_mail email qrCode) = false ->
  post_register name email (Some password) w
  = (error_registering_participant,
     {| db := s'; outbox := outbox w; console := console w ++ [SMTPError] |})
  /\ exists p, participants s' = participants (db w) ++ [p]
               /\ Participants.email p = email.
Proof.
  intros Hqr Hins Hsmtp. split.
  - rewrite post_register_unfold, Hqr, Hins, Hsmtp. reflexivity.
  - destruct (insert_participant_cases name email (bcrypt_hash password)
                qrCode (db w)) as [[err E]|(s'' & E & p & Hps & He & _)];
      rewrite E in Hins; [discriminate|].
    injection Hins as _ Hs'. subst s'. exists p. split; assumption.
Qed.
End Registration.

Lemma register_duplicate_email_rejected_witness :
  status (fst (@post_register sample_services "Ann" "ann@x.com"
                 (Some "pw"%string) empty_world)) = 201 /\
  fst (@post_register sample_services "Bob" "ann@x.com" (Some "pw2"%string)
         ann_registered_world) = error_registering_participant /\
  participants
    (db (snd (@post_register sample_services "Bob" "ann@x.com"
                (Some "pw2"%string) ann_registered_world)))
  = participants (db ann_registered_world).
Proof.
  assert (H201 : status (fst (@post_register sample_services "Ann" "ann@x.com"
                                (Some "pw"%string) empty_world)) = 201)
    by reflexivity.
  destruct (@register_duplicate_email_rejected sample_services empty_world
              "Ann" "Bob" "ann@x.com" (Some "pw"%string) (Some "pw2"%string)
              H201) as (Hr & Hp & _).
  split; [exact H201|]. split; [exact Hr|exact Hp].
Defined.

(** C7 (as stated, refuted).  After Ann's registration, a registration of
    Bob with her email is answered 500 "Error registering participant";
    so is a registration with a fresh email and no password, and so is one
    with a fresh email whose mail the transport rejects, which has stored
    its participant: the answer does not name the duplicate email. *)
Lemma register_duplicate_email_counterexample :
  fst (@post_register sample_services "Bob" "ann@x.com" (Some "pw2"%string)
         ann_registered_world)
  = {| status := 500; body := json_error "Error registering participant" |} /\
  fst (@post_register sample_services "Cy" "cy@x.com" None ann_registered_world)
  = fst (@post_register sample_services "Bob" "ann@x.com" (Some "pw2"%string)
           ann_registered_world) /\
  fst (@post_register sample_services_smtp_down "Cy" "cy@x.com"
         (Some "pw3"%string) ann_registered_world)
  = fst (@post_register sample_services "Bob" "ann@x.com" (Some "pw2"%string)
           ann_registered_world) /\
  map Participants.email
      (participants
         (db (snd (@post_register sample_services_smtp_down "Cy" "cy@x.com"
                     (Some "pw3"%string) ann_registered_world))))
  = ["ann@x.com"%string; "cy@x.com"%string].
Proof. vm_compute. repeat split. Qed.

(** C8 (as stated, refuted).  Ann registers while the transport rejects
    every mail: her row is stored, and the call is answered 500 "Error
    registering participant", not 201. *)
Lemma register_mail_failure_counterexample :
  let (r, w') := @post_register sample_services_smtp_down "Ann" "ann@x.com"
                   (Some "pw"%string) empty_world in
  r = {| status := 500; body := json_error "Error registering participant" |} /\
  map Participants.email (participants (db w')) = ["ann@x.com"%string] /\
  outbox w' = [] /\
  console w' = [SMTPError].
Proof. vm_compute. repeat split. Qed.

Lemma register_mail_failure_reported_witness :
  @post_register sample_services_smtp_down "Ann" "ann@x.com" (Some "pw"%string)
    empty_world
  = (error_registering_participant,
     {| db := {| participants := [ann];
                 participants_auto_increment := 2;
                 tracks_sessions := [];
                 attendance := [];
                 attendance_auto_increment := 1 |};
        outbox := [];
        console := [SMTPError] |}).
Proof.
  exact (proj1 (@register_mail_failure_reported sample_services_smtp_down
                  empty_world "Ann" "ann@x.com" "pw"
                  ("data:image/png;base64,Ann" ++ newline ++ "ann@x.com")%string
                  1 _ eq_refl eq_refl eq_refl)).
Defined.

(** * Further properties of the routes *)

(** ** Check-in: edges, frame and filling a session *)

Lemma filter_existsb_false {A : Type} (f : A -> bool) (l : list A) :
  existsb f l = false -> filter f l = [].
Proof.
  induction l as [|a l IH]; simpl; intros H; [reflexivity|].
  apply orb_false_iff in H. destruct H as [Ha Hl].
  rewrite Ha. apply IH. exact Hl.
Qed.

(** X1.  A check-in to a session id that names no row of [tracks_sessions]
    is answered 500 "Error during check-in": the TypeError of reading
    [session.registered] is logged and the store is untouched. *)
Theorem check_in_unknown_session (pid sid : Z) (w : world) :
  session_exists sid (db w) = false ->
  post_check_in pid sid w =
  (error_during_check_in,
   console_error (TypeError "Cannot read properties of undefined") w).
Proof.
  intros Hno. rewrite post_check_in_unfold.
  unfold select_capacity_registered.
  rewrite (filter_existsb_false _ _ Hno). reflexivity.
Qed.

Lemma check_in_unknown_session_witness :
  post_check_in 1 77 sample_world =
  (error_during_check_in,
   console_error (TypeError "Cannot read properties of undefined") sample_world).
Proof. exact (check_in_unknown_session 1 77 sample_world eq_refl). Defined.

(** X2.  A check-in of a participant id that names no participant, to a
    session with a free seat, is stopped by the foreign key of the INSERT:
    500 "Error during check-in", the error logged, no attendance row. *)
Theorem check_in_unknown_participant
  (w : world) (session : TracksSessions.row) (pid : Z) :
  sessions_keyed (db w) ->
  In session (tracks_sessions (db w)) ->
  admitted_count (TracksSessions.session_id session) (db w)
    < TracksSessions.capacity session ->
  participant_exists pid (db w) = false ->
  post_check_in pid (TracksSessions.session_id session) w =
  (error_during_check_in,
   console_error (ER_NO_REFERENCED_ROW "participant_id") w).
Proof.
  intros Hk HS Hfree Hno. rewrite post_check_in_unfold.
  rewrite (select_capacity_registered_keyed _ _ Hk HS). simpl.
  destruct (Z.geb_spec
              (admitted_count (TracksSessions.session_id session) (db w))
              (TracksSessions.capacity session)); [lia|].
  unfold insert_attendance. rewrite Hno. reflexivity.
Qed.

Lemma check_in_unknown_participant_witness :
  post_check_in 99 2 sample_world =
  (error_during_check_in,
   console_error (ER_NO_REFERENCED_ROW "participant_id") sample_world).
Proof.
  exact (check_in_unknown_participant sample_world workshop 99
           (sample_sessions_keyed _ _ _ _) (or_intror (or_introl eq_refl))
           eq_refl eq_refl).
Defined.

(** A check-in that finds a free seat and an existing participant. *)
Lemma post_check_in_admits (w : world) (session : TracksSessions.row) (pid : Z) :
  sessions_keyed (db w) ->
  In session (tracks_sessions (db w)) ->
  participant_exists pid (db w) = true ->
  admitted_count (TracksSessions.session_id session) (db w)
    < TracksSessions.capacity session ->
  exists s',
    post_check_in pid (TracksSessions.session_id session) w
    = (check_in_successful, with_db w s')
    /\ participants s' = participants (db w)
    /\ tracks_sessions s' = tracks_sessions (db w)
    /\ admitted_count (TracksSessions.session_id session) s'
       = admitted_count (TracksSessions.session_id session) (db w) + 1.
Proof.
  intros Hk HS Hp Hfree. rewrite post_check_in_unfold.
  rewrite (select_capacity_registered_keyed _ _ Hk HS). simpl.
  destruct (Z.geb_spec
              (admitted_count (TracksSessions.session_id session) (db w))
              (TracksSessions.capacity session)); [lia|].
  destruct (insert_attendance pid (TracksSessions.session_id session) (db w))
    as [e|[i s']] eqn:Hins.
  - unfold insert_attendance in Hins.
    rewrite Hp, (session_exists_in _ _ HS) in Hins. discriminate.
  - exists s'. destruct (insert_attendance_inr _ _ _ _ _ Hins) as (HP & HT & HA).
    repeat split; try assumption.
    rewrite (admitted_count_app _ _ _ _ HA). simpl. rewrite Z.eqb_refl.
    reflexivity.
Qed.

(** X3.  The answer of a check-in is 200 exactly when the participant
    exists and the session exists with fewer attendance rows than its
    capacity. *)
Theorem check_in_succeeds_iff (pid sid : Z) (w : world) :
  sessions_keyed (db w) ->
  status (fst (post_check_in pid sid w)) = 200 <->
  participant_exists pid (db w) = true
  /\ exists session,
       In session (tracks_sessions (db w))
       /\ TracksSessions.session_id session = sid
       /\ admitted_count sid (db w) < TracksSessions.capacity session.
Proof.
  intros Hk. split.
  - rewrite post_check_in_unfold. unfold select_capacity_registered.
    destruct (filter (fun t => TracksSessions.session_id t =? sid)
                     (tracks_sessions (db w))) as [|t ts] eqn:Hf;
      [discriminate|].
    pose proof (proj1 (filter_In
                         (fun t0 => TracksSessions.session_id t0 =? sid)
                         t (tracks_sessions (db w)))) as Ht.
    rewrite Hf in Ht. specialize (Ht (or_introl eq_refl)). simpl in Ht.
    destruct Ht as [Hin Hid]. apply Z.eqb_eq in Hid. simpl.
    destruct (Z.geb_spec (admitted_count sid (db w)) (TracksSessions.capacity t));
      [discriminate|].
    unfold insert_attendance.
    destruct (participant_exists pid (db w)); simpl; [|discriminate].
    intros _. split; [reflexivity|]. exists t. auto.
  - intros (Hp & session & HS & <- & Hfree).
    destruct (post_check_in_admits w session pid Hk HS Hp Hfree)
      as (s' & E & _). rewrite E. reflexivity.
Qed.

Lemma check_in_succeeds_iff_witness :
  status (fst (post_check_in 2 2 ann_at_workshop_world)) = 200 <->
  participant_exists 2 (db ann_at_workshop_world) = true
  /\ exists session,
       In session (tracks_sessions (db ann_at_workshop_world))
       /\ TracksSessions.session_id session = 2
       /\ admitted_count 2 (db ann_at_workshop_world)
          < TracksSessions.capacity session.
Proof.
  exact (check_in_succeeds_iff 2 2 ann_at_workshop_world
           (sample_sessions_keyed _ _ _ _)).
Defined.

(** X4.  Whatever its answer, a check-in leaves the participants, the
    sessions and the outbox as they were, keeps every attendance row, adds
    at most one row, for its own pair, and so never moves the count of
    another session. *)
Theorem check_in_frame (pid sid : Z) (w : world) :
  let w' := snd (post_check_in pid sid w) in
  participants (db w') = participants (db w)
  /\ tracks_sessions (db w') = tracks_sessions (db w)
  /\ outbox w' = outbox w
  /\ (exists added,
        attendance (db w') = attendance (db w) ++ added
        /\ (List.length added <= 1)%nat
        /\ Forall (fun a => Attendance.participant_id a = pid
                            /\ Attendance.session_id a = sid) added)
  /\ (forall sid', sid' <> sid ->
                   admitted_count sid' (db w') = admitted_count sid' (db w)).
Proof.
  intros w'. subst w'. rewrite post_check_in_unfold.
  assert (Hsame : forall w0 : world,
             db w0 = db w -> outbox w0 = outbox w ->
             participants (db w0) = participants (db w)
             /\ tracks_sessions (db w0) = tracks_sessions (db w)
             /\ outbox w0 = outbox w
             /\ (exists added,
                   attendance (db w0) = attendance (db w) ++ added
                   /\ (List.length added <= 1)%nat
                   /\ Forall (fun a => Attendance.participant_id a = pid
                                       /\ Attendance.session_id a = sid) added)
             /\ (forall sid', sid' <> sid ->
                   admitted_count sid' (db w0) = admitted_count sid' (db w))).
  { intros w0 Hdb Hout. rewrite Hdb. repeat split; try assumption.
    exists []. rewrite app_nil_r. repeat split; [simpl; lia|constructor]. }
  destruct (select_capacity_registered sid (db w)) as [|session rest];
    [apply Hsame; reflexivity|].
  destruct (registered session >=? capacity session);
    [apply Hsame; reflexivity|].
  destruct (insert_attendance pid sid (db w)) as [e|[i s']] eqn:Hins;
    [apply Hsame; reflexivity|].
  destruct (insert_attendance_inr _ _ _ _ _ Hins) as (HP & HT & HA).
  simpl. repeat split; try assumption.
  - eexists. split; [exact HA|]. split; [simpl; lia|].
    constructor; [simpl; auto|constructor].
  - intros sid' Hne. rewrite (admitted_count_app _ _ _ _ HA). simpl.
    destruct (Z.eqb_spec sid sid'); [congruence|lia].
Qed.

Lemma participant_exists_same (p : Z) (s s' : store) :
  participants s' = participants s ->
  participant_exists p s' = participant_exists p s.
Proof. intros E. unfold participant_exists. rewrite E. reflexivity. Qed.

(** X5.  Filling a session, requests served one after the other: of [n]
    check-ins of existing participants to a session that has [free] seats
    left, the first [min n free] are answered 200 "Check-in successful" and
    all the later ones 400 "Session is full"; the session ends with
    [min capacity (count + n)] attendance rows. *)
Theorem check_in_fills_session
  (session : TracksSessions.row) (pids : list Z) (w : world) :
  sessions_keyed (db w) ->
  In session (tracks_sessions (db w)) ->
  Forall (fun p => participant_exists p (db w) = true) pids ->
  admitted_count (TracksSessions.session_id session) (db w)
    <= TracksSessions.capacity session ->
  let sid := TracksSessions.session_id session in
  let free := Z.to_nat (TracksSessions.capacity session
                        - admitted_count sid (db w)) in
  let out := check_in_responses (map (fun p => (p, sid)) pids) w in
  fst out = repeat check_in_successful (Nat.min (List.length pids) free)
            ++ repeat session_is_full (List.length pids - free)
  /\ admitted_count sid (db (snd out))
     = Z.min (TracksSessions.capacity session)
             (admitted_count sid (db w) + Z.of_nat (List.length pids)).
Proof.
  intros Hk HS Hps Hcap sid free out. subst out free sid.
  revert w Hk HS Hps Hcap.
  induction pids as [|p pids IH]; intros w Hk HS Hps Hcap.
  - simpl. split; [reflexivity|]. lia.
  - inversion Hps as [|p0 l0 Hp Hps']; subst.
    cbn [map check_in_responses fst snd List.length].
    destruct (Z_lt_le_dec
                (admitted_count (TracksSessions.session_id session) (db w))
                (TracksSessions.capacity session)) as [Hfree|Hfull].
    + destruct (post_check_in_admits w session p Hk HS Hp Hfree)
        as (s' & E & HP & HT & HC).
      rewrite E.
      assert (Hk' : sessions_keyed (db (with_db w s'))).
      { unfold sessions_keyed. simpl. rewrite HT. exact Hk. }
      assert (HS' : In session (tracks_sessions (db (with_db w s')))).
      { simpl. rewrite HT. exact HS. }
      assert (Hps'' : Forall (fun q => participant_exists q (db (with_db w s'))
                                       = true) pids).
      { eapply Forall_impl; [|exact Hps']. intros q Hq. simpl.
        rewrite (participant_exists_same q _ _ HP). exact Hq. }
      assert (Hcap' : admitted_count (TracksSessions.session_id session)
                        (db (with_db w s'))
                      <= TracksSessions.capacity session) by (simpl; lia).
      destruct (IH (with_db w s') Hk' HS' Hps'' Hcap') as [IHr IHc].
      destruct (check_in_responses
                  (map (fun q => (q, TracksSessions.session_id session)) pids)
                  (with_db w s')) as [rs w2].
      simpl in IHr, IHc |- *. rewrite IHr, IHc, HC.
      replace (Z.to_nat (TracksSessions.capacity session
                         - admitted_count (TracksSessions.session_id session)
                             (db w)))
        with (S (Z.to_nat (TracksSessions.capacity session
                           - (admitted_count
                                (TracksSessions.session_id session) (db w) + 1))))
        by lia.
      split; [reflexivity|lia].
    + assert (Hrej : post_check_in p (TracksSessions.session_id session) w
                     = (session_is_full, w)).
      { rewrite post_check_in_unfold.
        rewrite (select_capacity_registered_keyed _ _ Hk HS). simpl.
        destruct (Z.geb_spec
                    (admitted_count (TracksSessions.session_id session) (db w))
                    (TracksSessions.capacity session)); [reflexivity|lia]. }
      rewrite Hrej.
      destruct (IH w Hk HS Hps' Hcap) as [IHr IHc].
      destruct (check_in_responses
                  (map (fun q => (q, TracksSessions.session_id session)) pids) w)
        as [rs w2].
      simpl in IHr, IHc |- *. rewrite IHr, IHc.
      replace (Z.to_nat (TracksSessions.capacity session
                         - admitted_count (TracksSessions.session_id session)
                             (db w))) with 0%nat by lia.
      rewrite Nat.min_0_r, Nat.sub_0_r. split; [reflexivity|lia].
Qed.

Lemma check_in_fills_session_witness :
  let out := check_in_responses [(1, 2); (2, 2); (1, 2)] sample_world in
  fst out = [check_in_successful; check_in_successful; session_is_full]
  /\ admitted_count 2 (db (snd out)) = 2.
Proof.
  apply (check_in_fills_session workshop [1; 2; 1] sample_world).
  - apply sample_sessions_keyed.
  - right. left. reflexivity.
  - repeat constructor.
  - vm_compute. discriminate.
Defined.

(** ** Check-ins in flight: overbooking has no bound *)

Lemma run_schedule_app (s1 s2 : list nat) (tasks : list check_in_task)
  (w : world) :
  run_schedule (s1 ++ s2) tasks w =
  run_schedule s2 (fst (run_schedule s1 tasks w)) (snd (run_schedule s1 tasks w)).
Proof.
  revert tasks w. induction s1 as [|i s1 IH]; intros tasks w; [reflexivity|].
  simpl. destruct (nth_error tasks i) as [t|]; [|apply IH].
  destruct (check_in_step t w) as [t' w']. apply IH.
Qed.

Lemma nth_error_middle {A : Type} (pre : list A) (x : A) (post : list A) :
  nth_error (pre ++ x :: post) (List.length pre) = Some x.
Proof. induction pre as [|a pre IH]; simpl; [reflexivity|exact IH]. Qed.

Lemma set_nth_middle {A : Type} (pre : list A) (x y : A) (post : list A) :
  set_nth (List.length pre) y (pre ++ x :: post) = pre ++ y :: post.
Proof.
  induction pre as [|a pre IH]; simpl; [reflexivity|]. rewrite IH. reflexivity.
Qed.

(** One round in which every request has its SELECT answered: with a seat
    free, all of them pass the capacity test and nothing is written. *)
Lemma all_selects_first (w : world) (session : TracksSessions.row)
  (pids : list Z) (pre : list check_in_task) :
  sessions_keyed (db w) ->
  In session (tracks_sessions (db w)) ->
  admitted_count (TracksSessions.session_id session) (db w)
    < TracksSessions.capacity session ->
  run_schedule (seq (List.length pre) (List.length pids))
    (pre ++ map (fun p => Received p (TracksSessions.session_id session)) pids) w
  = (pre ++ map (fun p => Inserting p (TracksSessions.session_id session)) pids,
     w).
Proof.
  intros Hk HS Hfree. revert pre.
  induction pids as [|p pids IH]; intros pre; [reflexivity|].
  cbn [List.length seq map run_schedule].
  rewrite nth_error_middle, (step_received_free p w session Hk HS Hfree).
  rewrite set_nth_middle.
  replace (S (List.length pre))
    with (List.length (pre ++ [Inserting p (TracksSessions.session_id session)]))
    by (rewrite length_app; simpl; lia).
  change (pre ++ Inserting p (TracksSessions.session_id session)
              :: map (fun q => Received q (TracksSessions.session_id session)) pids)
    with (pre ++ [Inserting p (TracksSessions.session_id session)]
              ++ map (fun q => Received q (TracksSessions.session_id session)) pids).
  rewrite app_assoc, IH, <- app_assoc. reflexivity.
Qed.

(** One round in which every pending INSERT is executed: each adds its
    row. *)
Lemma all_inserts_next (sid : Z) (pids : list Z) (pre : list check_in_task)
  (w : world) :
  session_exists sid (db w) = true ->
  Forall (fun p => participant_exists p (db w) = true) pids ->
  exists w',
    run_schedule (seq (List.length pre) (List.length pids))
      (pre ++ map (fun p => Inserting p sid) pids) w
    = (pre ++ map (fun _ => Responded check_in_successful) pids, w')
    /\ admitted_count sid (db w')
       = admitted_count sid (db w) + Z.of_nat (List.length pids).
Proof.
  revert pre w. induction pids as [|p pids IH]; intros pre w Hs Hps.
  - exists w. split; [reflexivity|]. simpl. lia.
  - inversion Hps as [|p0 l0 Hp Hps']; subst.
    cbn [List.length seq map run_schedule].
    rewrite nth_error_middle.
    destruct (step_inserting p sid w Hp Hs) as (s' & E & HP & HT & HC).
    rewrite E, set_nth_middle.
    replace (S (List.length pre))
      with (List.length (pre ++ [Responded check_in_successful]))
      by (rewrite length_app; simpl; lia).
    change (pre ++ Responded check_in_successful
                :: map (fun q => Inserting q sid) pids)
      with (pre ++ [Responded check_in_successful]
                ++ map (fun q => Inserting q sid) pids).
    rewrite app_assoc.
    assert (Hs' : session_exists sid (db (with_db w s')) = true).
    { unfold session_exists. simpl. rewrite HT. exact Hs. }
    assert (Hps'' : Forall (fun q => participant_exists q (db (with_db w s'))
                                     = true) pids).
    { eapply Forall_impl; [|exact Hps']. intros q Hq. simpl.
      rewrite (participant_exists_same q _ _ HP). exact Hq. }
    destruct (IH (pre ++ [Responded check_in_successful]) (with_db w s')
                Hs' Hps'') as (w' & Erun & Hcount).
    exists w'. rewrite Erun, <- app_assoc. split; [reflexivity|].
    rewrite Hcount. simpl db. rewrite HC.
    cbn [List.length]. lia.
Qed.

(** X6.  Overbooking has no bound: when a session has a seat free and the
    SELECTs of [n] check-ins of existing participants are all answered
    before the first INSERT runs, all [n] are answered 200 "Check-in
    successful" and the session gains [n] rows, whatever its capacity. *)
Theorem check_in_overbooks_without_bound
  (w : world) (session : TracksSessions.row) (pids : list Z) :
  sessions_keyed (db w) ->
  In session (tracks_sessions (db w)) ->
  Forall (fun p => participant_exists p (db w) = true) pids ->
  admitted_count (TracksSessions.session_id session) (db w)
    < TracksSessions.capacity session ->
  let sid := TracksSessions.session_id session in
  let n := List.length pids in
  let out := run_schedule (seq 0 n ++ seq 0 n)
               (map (fun p => Received p sid) pids) w in
  fst out = repeat (Responded check_in_successful) n
  /\ admitted_count sid (db (snd out))
     = admitted_count sid (db w) + Z.of_nat n.
Proof.
  intros Hk HS Hps Hfree sid n out. subst out n sid.
  rewrite run_schedule_app.
  pose proof (all_selects_first w session pids [] Hk HS Hfree) as E1.
  cbn [List.length app] in E1. rewrite E1. cbn [fst snd].
  destruct (all_inserts_next (TracksSessions.session_id session) pids [] w
              (session_exists_in _ _ HS) Hps) as (w' & E & Hcount).
  cbn [List.length app] in E. rewrite E. cbn [fst snd]. split; [|exact Hcount].
  clear. induction pids as [|p pids IH]; simpl; [reflexivity|].
  rewrite IH. reflexivity.
Qed.

Lemma check_in_overbooks_without_bound_witness :
  let out := run_schedule [0; 1; 2; 0; 1; 2]%nat
               [Received 1 1; Received 2 1; Received 1 1] sample_world in
  fst out = [Responded check_in_successful; Responded check_in_successful;
             Responded check_in_successful]
  /\ admitted_count 1 (db (snd out)) = 3
  /\ TracksSessions.capacity keynote = 1.
Proof.
  intros out. split; [|split; [|reflexivity]].
  - apply (check_in_overbooks_without_bound sample_world keynote [1; 2; 1]).
    + apply sample_sessions_keyed.
    + left. reflexivity.
    + repeat constructor.
    + reflexivity.
  - apply (check_in_overbooks_without_bound sample_world keynote [1; 2; 1]).
    + apply sample_sessions_keyed.
    + left. reflexivity.
    + repeat constructor.
    + reflexivity.
Defined.

(** ** Registration and login: what they store, what they reveal *)

Lemma insert_participant_inr (n e h q : string) (s : store) (i : Z) (s' : store) :
  insert_participant n e h q s = inr (i, s') ->
  existsb (fun p => String.eqb (Participants.email p) e) (participants s) = false
  /\ existsb (fun p => String.eqb (Participants.qr_code p) q) (participants s)
     = false
  /\ i = participants_auto_increment s
  /\ s' = {| participants :=
               participants s ++
               [{| Participants.participant_id := participants_auto_increment s;
                   Participants.name := n;
                   Participants.email := e;
                   Participants.organization := None;
                   Participants.password_hash := h;
                   Participants.qr_code := q;
                   Participants.sessions_registered := None |}];
             participants_auto_increment := participants_auto_increment s + 1;
             tracks_sessions := tracks_sessions s;
             attendance := attendance s;
             attendance_auto_increment := attendance_auto_increment s |}.
Proof.
  unfold insert_participant.
  destruct (existsb _ (participants s)); [discriminate|].
  destruct (existsb _ (participants s)); [discriminate|].
  intros E. inversion E. auto.
Qed.

Lemma insert_participant_duplicate_qr (n e h q : string) (s : store) :
  (exists p, In p (participants s) /\ Participants.qr_code p = q) ->
  exists err, insert_participant n e h q s = inl err.
Proof.
  intros (p & Hin & Hq). unfold insert_participant.
  destruct (existsb (fun p0 => String.eqb (Participants.email p0) e)
                    (participants s)); [eexists; reflexivity|].
  replace (existsb (fun p0 => String.eqb (Participants.qr_code p0) q)
                   (participants s)) with true; [eexists; reflexivity|].
  symmetry. apply existsb_exists. exists p. split; [exact Hin|].
  apply String.eqb_eq. exact Hq.
Qed.

Lemma NoDup_snoc {A : Type} (l : list A) (x : A) :
  NoDup l -> ~ In x l -> NoDup (l ++ [x]).
Proof.
  induction l as [|a l IH]; simpl; intros Hnd Hx.
  - constructor; [intros []|constructor].
  - inversion Hnd as [|a0 l0 Ha Hnd']; subst. constructor.
    + intros Hin. apply in_app_or in Hin. destruct Hin as [Hin|[E|[]]].
      * exact (Ha Hin).
      * apply Hx. left. symmetry. exact E.
    + apply IH; [exact Hnd'|]. intros Hin. apply Hx. right. exact Hin.
Qed.

Lemma existsb_eqb_not_in {A : Type} (f : A -> string) (k : string) (l : list A) :
  existsb (fun a => String.eqb (f a) k) l = false -> ~ In k (map f l).
Proof.
  intros Hno Hin. apply in_map_iff in Hin. destruct Hin as (a & Ha & Hin).
  assert (Ht : existsb (fun a0 => String.eqb (f a0) k) l = true).
  { apply existsb_exists. exists a. split; [exact Hin|].
    apply String.eqb_eq. exact Ha. }
  congruence.
Qed.

Section IdentityEffects.
Context {svc : Services}.

(** X7.  A registration answered 201 has stored exactly one new participant
    and sent exactly one mail: the new row carries the name and email of
    the request, bcrypt's hash of the password, no organization and no
    registered session, its key is the [participant_id] of the answer, and
    the mail goes to the email of the request. *)
Theorem register_success_effects
  (name email : string) (password : option string) (w : world) :
  status (fst (post_register name email password w)) = 201 ->
  let r := fst (post_register name email password w) in
  let w' := snd (post_register name email password w) in
  exists p : Participants.row,
    participants (db w') = participants (db w) ++ [p]
    /\ body r = JObj [("message"%string, JStr "Registration successful");
                      ("participant_id"%string,
                       JNum (Participants.participant_id p))]
    /\ Participants.name p = name
    /\ Participants.email p = email
    /\ (exists pw, password = Some pw
                   /\ Participants.password_hash p = bcrypt_hash pw)
    /\ Participants.organization p = None
    /\ Participants.sessions_registered p = None
    /\ (exists m, outbox w' = outbox w ++ [m] /\ to m = email)
    /\ console w' = console w
    /\ tracks_sessions (db w') = tracks_sessions (db w)
    /\ attendance (db w') = attendance (db w).
Proof.
  intros H201 r w'. subst r w'. revert H201. rewrite post_register_unfold.
  destruct password as [pw|]; [|discriminate].
  destruct (QRCode_toDataURL (name ++ newline ++ email)) as [qr|];
    [|discriminate].
  destruct (insert_participant name email (bcrypt_hash pw) qr (db w))
    as [e|[i s']] eqn:Hins; [discriminate|].
  destruct (smtp_accepts (registration_mail email qr)); [|discriminate].
  intros _. destruct (insert_participant_inr _ _ _ _ _ _ _ Hins)
    as (_ & _ & -> & ->).
  eexists. simpl. split; [reflexivity|]. simpl.
  repeat split; try reflexivity.
  - exists pw. split; reflexivity.
  - eexists. split; reflexivity.
Qed.

(** X8.  A registration not answered 201 is answered 500 "Error registering
    participant" and has sent no mail; the participants are as before, or
    one participant with the email of the request has been added all the
    same (the case of the rejected mail). *)
Theorem register_failure_effects
  (name email : string) (password : option string) (w : world) :
  status (fst (post_register name email password w)) <> 201 ->
  let w' := snd (post_register name email password w) in
  fst (post_register name email password w) = error_registering_participant
  /\ outbox w' = outbox w
  /\ tracks_sessions (db w') = tracks_sessions (db w)
  /\ attendance (db w') = attendance (db w)
  /\ (participants (db w') = participants (db w)
      \/ exists p, participants (db w') = participants (db w) ++ [p]
                   /\ Participants.email p = email).
Proof.
  intros Hnot w'. subst w'. revert Hnot. rewrite post_register_unfold.
  destruct password as [pw|]; [|intros _; simpl; auto 6].
  destruct (QRCode_toDataURL (name ++ newline ++ email)) as [qr|];
    [|intros _; simpl; auto 6].
  destruct (insert_participant name email (bcrypt_hash pw) qr (db w))
    as [e|[i s']] eqn:Hins; [intros _; simpl; auto 6|].
  destruct (smtp_accepts (registration_mail email qr));
    [intros Hnot; exfalso; apply Hnot; reflexivity|].
  intros _. destruct (insert_participant_inr _ _ _ _ _ _ _ Hins)
    as (_ & _ & -> & ->).
  simpl. repeat split. right. eexists. split; reflexivity.
Qed.

(** X9.  Registration and login fit together: as soon as bcrypt accepts a
    password against the hash it made of it, a registration answered 201
    is followed by a successful login with the same email and password,
    which returns the participant just created. *)
Theorem register_then_login (name email pw : string) (w : world) :
  bcrypt_compare pw (bcrypt_hash pw) = true ->
  status (fst (post_register name email (Some pw) w)) = 201 ->
  let w1 := snd (post_register name email (Some pw) w) in
  exists p : Participants.row,
    post_login email (Some pw) w1
    = ({| status := 200;
          body := JObj [("message"%string, JStr "Login successful");
                        ("participant"%string, Participants.select_star p)] |},
       w1)
    /\ Participants.participant_id p = participants_auto_increment (db w)
    /\ Participants.name p = name
    /\ Participants.email p = email.
Proof.
  intros Hbcrypt H201 w1. subst w1. revert H201.
  rewrite post_register_unfold.
  destruct (QRCode_toDataURL (name ++ newline ++ email)) as [qr|];
    [|discriminate].
  destruct (insert_participant name email (bcrypt_hash pw) qr (db w))
    as [e|[i s']] eqn:Hins; [discriminate|].
  destruct (smtp_accepts (registration_mail email qr)); [|discriminate].
  intros _. destruct (insert_participant_inr _ _ _ _ _ _ _ Hins)
    as (Hnew & _ & -> & ->).
  eexists. rewrite post_login_unfold. cbn [snd db].
  unfold select_participants_by_email. cbn [participants].
  rewrite filter_app, (filter_existsb_false _ _ Hnew). cbn [filter app].
  cbn [Participants.email]. rewrite String.eqb_refl.
  cbn [Participants.password_hash]. rewrite Hbcrypt.
  split; [reflexivity|]. simpl. auto.
Qed.

(** X10.  Login reads and never writes: the store and the outbox are as
    before; and it answers 200 only for the email of a stored participant
    and a password that bcrypt accepts against the stored hash, logging
    nothing then. *)
Theorem login_read_only_and_sound
  (email : string) (password : option string) (w : world) :
  let r := fst (post_login email password w) in
  let w' := snd (post_login email password w) in
  db w' = db w
  /\ outbox w' = outbox w
  /\ (status r = 200 ->
      w' = w
      /\ exists p pw,
           In p (participants (db w))
           /\ Participants.email p = email
           /\ password = Some pw
           /\ bcrypt_compare pw (Participants.password_hash p) = true).
Proof.
  intros r w'. subst r w'. rewrite post_login_unfold.
  unfold select_participants_by_email.
  destruct (filter (fun p => String.eqb (Participants.email p) email)
                   (participants (db w))) as [|q rest] eqn:Hf.
  - simpl. repeat split. discriminate.
  - pose proof (proj1 (filter_In
                         (fun p => String.eqb (Participants.email p) email)
                         q (participants (db w)))) as Hq.
    rewrite Hf in Hq. specialize (Hq (or_introl eq_refl)). simpl in Hq.
    destruct Hq as [Hin He]. apply String.eqb_eq in He.
    destruct password as [pw|]; [|simpl; repeat split; discriminate].
    destruct (bcrypt_compare pw (Participants.password_hash q)) eqn:Hc;
      simpl; repeat split; try discriminate.
    exists q, pw. auto.
Qed.

(** X11.  A login without password tells whether the email is on file: it
    is answered 401 when no participant has the email, and 500 when one
    has, because bcrypt throws on the missing argument. *)
Theorem login_missing_password_distinguishes (email : string) (w : world) :
  status (fst (post_login email None w))
  = if existsb (fun p => String.eqb (Participants.email p) email)
               (participants (db w))
    then 500 else 401.
Proof.
  rewrite post_login_unfold. unfold select_participants_by_email.
  induction (participants (db w)) as [|q qs IH]; [reflexivity|].
  simpl. destruct (String.eqb (Participants.email q) email); [reflexivity|].
  exact IH.
Qed.
End IdentityEffects.

Lemma register_success_effects_witness :
  status (fst (@post_register sample_services "Ann" "ann@x.com"
                 (Some "pw"%string) empty_world)) = 201 /\
  exists p : Participants.row,
    participants (db ann_registered_world) = [p]
    /\ Participants.participant_id p = 1
    /\ Participants.email p = "ann@x.com"%string.
Proof.
  assert (H201 : status (fst (@post_register sample_services "Ann" "ann@x.com"
                                (Some "pw"%string) empty_world)) = 201)
    by reflexivity.
  split; [exact H201|].
  destruct (@register_success_effects sample_services "Ann" "ann@x.com"
              (Some "pw"%string) empty_world H201)
    as (p & Hps & Hbody & _ & He & _).
  exists p. split; [exact Hps|]. split; [|exact He].
  injection Hbody as Hid. symmetry. exact Hid.
Defined.

Lemma register_failure_effects_witness :
  status (fst (@post_register sample_services "Bob" "ann@x.com" None
                 ann_registered_world)) <> 201 /\
  fst (@post_register sample_services "Bob" "ann@x.com" None
         ann_registered_world) = error_registering_participant /\
  outbox (snd (@post_register sample_services "Bob" "ann@x.com" None
                 ann_registered_world)) = outbox ann_registered_world.
Proof.
  assert (Hnot : status (fst (@post_register sample_services "Bob" "ann@x.com"
                                None ann_registered_world)) <> 201)
    by (vm_compute; discriminate).
  destruct (@register_failure_effects sample_services "Bob" "ann@x.com" None
              ann_registered_world Hnot) as (Hr & Hout & _).
  split; [exact Hnot|]. split; [exact Hr|exact Hout].
Defined.

Lemma register_then_login_witness :
  exists p : Participants.row,
    @post_login sample_services "ann@x.com" (Some "pw"%string)
      ann_registered_world
    = ({| status := 200;
          body := JObj [("message"%string, JStr "Login successful");
                        ("participant"%string, Participants.select_star p)] |},
       ann_registered_world)
    /\ Participants.participant_id p = 1.
Proof.
  destruct (@register_then_login sample_services "Ann" "ann@x.com" "pw"
              empty_world eq_refl eq_refl) as (p & Hlogin & Hid & _).
  exists p. split; [exact Hlogin|exact Hid].
Defined.

Lemma login_read_only_and_sound_witness :
  status (fst (@post_login sample_services "ann@x.com" (Some "pw"%string)
                 sample_world)) = 200 /\
  exists p pw,
    In p (participants (db sample_world))
    /\ Participants.email p = "ann@x.com"%string
    /\ Some "pw"%string = Some pw
    /\ @bcrypt_compare sample_services pw (Participants.password_hash p) = true.
Proof.
  split; [reflexivity|].
  exact (proj2 (proj2 (proj2 (@login_read_only_and_sound sample_services
                                "ann@x.com" (Some "pw"%string) sample_world))
                  eq_refl)).
Defined.

Section IdentityKeys.
Context {svc : Services}.

Lemma insert_participant_keeps_keys (n e h q : string) (s : store) (i : Z)
  (s' : store) :
  participants_keyed s ->
  insert_participant n e h q s = inr (i, s') ->
  participants_keyed s'.
Proof.
  intros (He & Hq & Hid & Hlt) Hins.
  destruct (insert_participant_inr _ _ _ _ _ _ _ Hins)
    as (Hnew_e & Hnew_q & _ & ->).
  unfold participants_keyed. simpl. rewrite !map_app. simpl.
  split; [|split; [|split]].
  - apply NoDup_snoc; [exact He|]. apply existsb_eqb_not_in. exact Hnew_e.
  - apply NoDup_snoc; [exact Hq|]. apply existsb_eqb_not_in. exact Hnew_q.
  - apply NoDup_snoc; [exact Hid|]. intros Hin.
    apply in_map_iff in Hin. destruct Hin as (p & Hp & Hin).
    rewrite Forall_forall in Hlt. specialize (Hlt p Hin). lia.
  - apply Forall_app. split.
    + eapply Forall_impl; [|exact Hlt]. simpl. intros p Hp. lia.
    + constructor; [simpl; lia|constructor].
Qed.

Lemma update_sessions_registered_keeps_keys (sid pid : Z) (s : store) :
  participants_keyed s ->
  participants_keyed (update_sessions_registered sid pid s).
Proof.
  intros (He & Hq & Hid & Hlt). unfold participants_keyed. simpl.
  rewrite !map_map.
  assert (Hsame : forall (B : Type) (f : Participants.row -> B),
             (forall p, f {| Participants.participant_id :=
                               Participants.participant_id p;
                             Participants.name := Participants.name p;
                             Participants.email := Participants.email p;
                             Participants.organization :=
                               Participants.organization p;
                             Participants.password_hash :=
                               Participants.password_hash p;
                             Participants.qr_code := Participants.qr_code p;
                             Participants.sessions_registered :=
                               ifnull_concat
                                 (Participants.sessions_registered p) sid |}
                        = f p) ->
             map (fun p =>
                    f (if Participants.participant_id p =? pid
                       then {| Participants.participant_id :=
                                 Participants.participant_id p;
                               Participants.name := Participants.name p;
                               Participants.email := Participants.email p;
                               Participants.organization :=
                                 Participants.organization p;
                               Participants.password_hash :=
                                 Participants.password_hash p;
                               Participants.qr_code := Participants.qr_code p;
                               Participants.sessions_registered :=
                                 ifnull_concat
                                   (Participants.sessions_registered p) sid |}
                       else p))
                 (participants s)
             = map f (participants s)).
  { intros B f Hf. apply map_ext. intros p.
    destruct (Participants.participant_id p =? pid); [apply Hf|reflexivity]. }
  rewrite !Hsame by reflexivity.
  split; [exact He|]. split; [exact Hq|]. split; [exact Hid|].
  rewrite Forall_map.
  eapply Forall_impl; [|exact Hlt]. intros p Hp.
  destruct (Participants.participant_id p =? pid); simpl; exact Hp.
Qed.

(** X12.  The keys of [participants] are kept by every route that runs on a
    store where they hold: after a registration, a session registration, a
    check-in or a login, emails, QR codes and participant ids are still
    without duplicates and the counter is still past every id. *)
Theorem identity_routes_keep_keys (w : world) :
  participants_keyed (db w) ->
  (forall name email password,
      participants_keyed (db (snd (post_register name email password w))))
  /\ (forall pid sid,
         participants_keyed (db (snd (post_register_session pid sid w))))
  /\ (forall pid sid, participants_keyed (db (snd (post_check_in pid sid w))))
  /\ (forall email password,
         participants_keyed (db (snd (post_login email password w)))).
Proof.
  intros Hk. split; [|split; [|split]].
  - intros name email password. rewrite post_register_unfold.
    destruct password as [pw|]; [|exact Hk].
    destruct (QRCode_toDataURL (name ++ newline ++ email)) as [qr|];
      [|exact Hk].
    destruct (insert_participant name email (bcrypt_hash pw) qr (db w))
      as [e|[i s']] eqn:Hins; [exact Hk|].
    pose proof (insert_participant_keeps_keys _ _ _ _ _ _ _ Hk Hins) as Hk'.
    destruct (smtp_accepts (registration_mail email qr)); exact Hk'.
  - intros pid sid. rewrite post_register_session_unfold.
    apply update_sessions_registered_keeps_keys. exact Hk.
  - intros pid sid. rewrite post_check_in_unfold.
    destruct (select_capacity_registered sid (db w)) as [|session rest];
      [exact Hk|].
    destruct (registered session >=? capacity session); [exact Hk|].
    unfold insert_attendance.
    destruct (negb (participant_exists pid (db w))); [exact Hk|].
    destruct (negb (session_exists sid (db w))); exact Hk.
  - intros email password. rewrite post_login_unfold.
    destruct (select_participants_by_email email (db w)) as [|q rest];
      [exact Hk|].
    destruct password as [pw|]; [|exact Hk].
    destruct (bcrypt_compare pw (Participants.password_hash q)); exact Hk.
Qed.

(** X13.  The QR payload is the name, a newline and the email run together:
    two registrations whose names and emails differ but run together to
    the same text get the same QR code, and the second is answered 500
    "Error registering participant" with no participant added, although
    its email is not on file. *)
Theorem register_qr_payload_collision
  (name1 email1 name2 email2 : string) (password1 password2 : option string)
  (w : world) :
  (name1 ++ newline ++ email1)%string = (name2 ++ newline ++ email2)%string ->
  status (fst (post_register name1 email1 password1 w)) = 201 ->
  let w1 := snd (post_register name1 email1 password1 w) in
  fst (post_register name2 email2 password2 w1) = error_registering_participant
  /\ participants (db (snd (post_register name2 email2 password2 w1)))
     = participants (db w1).
Proof.
  intros Hsame H201 w1. subst w1. revert H201.
  rewrite (post_register_unfold name1).
  destruct password1 as [pw1|]; [|discriminate].
  destruct (QRCode_toDataURL (name1 ++ newline ++ email1)) as [qr|] eqn:Hqr;
    [|discriminate].
  destruct (insert_participant name1 email1 (bcrypt_hash pw1) qr (db w))
    as [e|[i s']] eqn:Hins; [discriminate|].
  destruct (smtp_accepts (registration_mail email1 qr)); [|discriminate].
  intros _. destruct (insert_participant_inr _ _ _ _ _ _ _ Hins)
    as (_ & _ & _ & ->).
  rewrite post_register_unfold, <- Hsame, Hqr. cbn [snd db].
  destruct password2 as [pw2|]; [|split; reflexivity].
  match goal with
  | |- context [insert_participant name2 email2 ?h qr ?s] =>
      destruct (insert_participant_duplicate_qr name2 email2 h qr s) as [err E]
  end.
  - eexists. split; [simpl; apply in_or_app; right; left; reflexivity|].
    reflexivity.
  - rewrite E. split; reflexivity.
Qed.
End IdentityKeys.

Lemma sample_participants_keyed : participants_keyed (db sample_world).
Proof.
  unfold participants_keyed. simpl.
  repeat split; repeat constructor; simpl;
    try (intros [E|[]]; discriminate E); try (intros []); reflexivity.
Defined.

Lemma identity_routes_keep_keys_witness :
  participants_keyed (db sample_world) /\
  participants_keyed
    (db (snd (@post_register sample_services "Cy" "cy@x.com" (Some "pw3"%string)
                sample_world))).
Proof.
  split; [exact sample_participants_keyed|].
  exact (proj1 (@identity_routes_keep_keys sample_services sample_world
                  sample_participants_keyed) "Cy"%string "cy@x.com"%string
           (Some "pw3"%string)).
Defined.

Lemma register_qr_payload_collision_witness :
  ("A" ++ newline ++ ("b" ++ newline ++ "c"))%string
  = (("A" ++ newline ++ "b") ++ newline ++ "c")%string /\
  fst (@post_register sample_services ("A" ++ newline ++ "b") "c"
         (Some "pw2"%string)
         (snd (@post_register sample_services "A" ("b" ++ newline ++ "c")
                 (Some "pw"%string) empty_world)))
  = error_registering_participant.
Proof.
  split; [reflexivity|].
  exact (proj1 (@register_qr_payload_collision sample_services
                  "A" ("b" ++ newline ++ "c") ("A" ++ newline ++ "b") "c"
                  (Some "pw"%string) (Some "pw2"%string) empty_world
                  eq_refl eq_refl)).
Defined.

(** ** Session registration: frame and text format *)

(** X14.  A session registration changes one column of the rows of one
    participant: sessions, attendance, outbox and console are as before,
    every participant row stays at its place with its id, name, email,
    organization, password hash and QR code, and the rows of the other
    participants are unchanged. *)
Theorem register_session_frame (pid sid : Z) (w : world) :
  let w' := snd (post_register_session pid sid w) in
  tracks_sessions (db w') = tracks_sessions (db w)
  /\ attendance (db w') = attendance (db w)
  /\ outbox w' = outbox w
  /\ console w' = console w
  /\ List.length (participants (db w')) = List.length (participants (db w))
  /\ forall (i : nat) (p : Participants.row),
       nth_error (participants (db w)) i = Some p ->
       exists p',
         nth_error (participants (db w')) i = Some p'
         /\ Participants.participant_id p' = Participants.participant_id p
         /\ Participants.name p' = Participants.name p
         /\ Participants.email p' = Participants.email p
         /\ Participants.organization p' = Participants.organization p
         /\ Participants.password_hash p' = Participants.password_hash p
         /\ Participants.qr_code p' = Participants.qr_code p
         /\ (Participants.participant_id p <> pid -> p' = p).
Proof.
  intros w'. subst w'. rewrite post_register_session_unfold. simpl.
  repeat split; try reflexivity.
  - apply length_map.
  - intros i p Hi. rewrite nth_error_map, Hi. simpl.
    destruct (Z.eqb_spec (Participants.participant_id p) pid) as [E|N].
    + eexists. split; [reflexivity|]. simpl. repeat split. contradiction.
    + exists p. repeat split.
Qed.

(** X15.  Registration of intent does not touch admission: after a session
    registration every session has the attendance count it had, and any
    check-in gets the answer it would have got before. *)
Theorem register_session_does_not_affect_check_in
  (rpid rsid pid sid : Z) (w : world) :
  let w1 := snd (post_register_session rpid rsid w) in
  (forall s, admitted_count s (db w1) = admitted_count s (db w))
  /\ fst (post_check_in pid sid w1) = fst (post_check_in pid sid w).
Proof.
  intros w1. subst w1. rewrite post_register_session_unfold. simpl.
  split; [reflexivity|].
  rewrite !post_check_in_unfold. simpl db.
  change (select_capacity_registered sid
            (update_sessions_registered rsid rpid (db w)))
    with (select_capacity_registered sid (db w)).
  destruct (select_capacity_registered sid (db w)) as [|session rest];
    [reflexivity|].
  destruct (registered session >=? capacity session); [reflexivity|].
  unfold insert_attendance. rewrite participant_exists_update.
  change (session_exists sid (update_sessions_registered rsid rpid (db w)))
    with (session_exists sid (db w)).
  destruct (negb (participant_exists pid (db w))); [reflexivity|].
  destruct (negb (session_exists sid (db w))); reflexivity.
Qed.

(** X16.  The first two session registrations of a participant run
    together: on a row whose [sessions_registered] is NULL, registering
    session [a] and then session [b], both safe integers, leaves the
    decimal text of [a], the decimal text of [b] and one comma, with
    nothing between the two numbers. *)
Theorem register_session_first_two_run_together
  (w : world) (pid a b : Z) (i : nat) (p : Participants.row) :
  isSafeInteger a = true ->
  isSafeInteger b = true ->
  nth_error (participants (db w)) i = Some p ->
  Participants.participant_id p = pid ->
  Participants.sessions_registered p = None ->
  let w2 := snd (post_register_session pid b
                   (snd (post_register_session pid a w))) in
  exists p2,
    nth_error (participants (db w2)) i = Some p2
    /\ Participants.sessions_registered p2
       = Some (decimal a ++ decimal b ++ ",")%string.
Proof.
  intros _ _ Hi Hid Hnull w2. subst w2.
  rewrite !post_register_session_unfold. simpl db.
  destruct (update_sessions_registered_nth a pid (db w) i p Hi Hid)
    as (p1 & Hi1 & Hid1 & Hsr1).
  destruct (update_sessions_registered_nth b pid _ i p1 Hi1 Hid1)
    as (p2 & Hi2 & _ & Hsr2).
  exists p2. split; [exact Hi2|].
  rewrite Hsr2, Hsr1, Hnull. reflexivity.
Qed.

Lemma register_session_first_two_run_together_witness :
  (exists p2,
      nth_error
        (participants
           (db (snd (post_register_session 1 23
                       (snd (post_register_session 1 1 sample_world))))))
        0 = Some p2
      /\ Participants.sessions_registered p2 = Some "123,"%string)
  /\ (exists p2,
         nth_error
           (participants
              (db (snd (post_register_session 1 3
                          (snd (post_register_session 1 12 sample_world))))))
           0 = Some p2
         /\ Participants.sessions_registered p2 = Some "123,"%string).
Proof.
  split.
  - exact (register_session_first_two_run_together sample_world 1 1 23 0 ann
             eq_refl eq_refl eq_refl eq_refl eq_refl).
  - exact (register_session_first_two_run_together sample_world 1 12 3 0 ann
             eq_refl eq_refl eq_refl eq_refl eq_refl).
Defined.

(** ** The catalog: update, insert, delete *)

Lemma post_sessions_unfold (insertId : Z) (session_id : option Z)
  (track session_name speaker time venue : string) (cap : Z) (w : world) :
  post_sessions insertId session_id track session_name speaker time venue cap w
  = if truthy session_id
    then match session_id with
         | Some sid =>
             (session_updated,
              with_db w (update_tracks_sessions track session_name speaker
                           time venue cap sid (db w)))
         | None => (session_updated, w)
         end
    else match insert_tracks_sessions insertId track session_name speaker
                 time venue cap (db w) with
         | inr (_, s') => (session_added, with_db w s')
         | inl e => (error_managing_session, console_error e w)
         end.
Proof.
  unfold post_sessions, try_catch, bind, execute, ret.
  destruct session_id as [sid|]; simpl.
  - destruct (negb (sid =? 0)); [reflexivity|].
    destruct (insert_tracks_sessions insertId track session_name speaker
                time venue cap (db w)) as [e|[i s']]; reflexivity.
  - destruct (insert_tracks_sessions insertId track session_name speaker
                time venue cap (db w)) as [e|[i s']]; reflexivity.
Qed.

Lemma with_db_same (w : world) : with_db w (db w) = w.
Proof. destruct w; reflexivity. Qed.

Lemma update_tracks_sessions_ids
  (track session_name speaker time venue : string) (cap sid : Z) (s : store) :
  map TracksSessions.session_id
      (tracks_sessions (update_tracks_sessions track session_name speaker
                          time venue cap sid s))
  = map TracksSessions.session_id (tracks_sessions s).
Proof.
  simpl. rewrite map_map. apply map_ext. intros t.
  destruct (TracksSessions.session_id t =? sid); reflexivity.
Qed.

Lemma update_tracks_sessions_absent
  (track session_name speaker time venue : string) (cap sid : Z) (s : store) :
  session_exists sid s = false ->
  update_tracks_sessions track session_name speaker time venue cap sid s = s.
Proof.
  unfold session_exists, update_tracks_sessions. intros Hno.
  destruct s as [ps n ts att m]. simpl in *. f_equal.
  induction ts as [|t ts IH]; simpl in *; [reflexivity|].
  apply orb_false_iff in Hno. destruct Hno as [Ht Hts].
  rewrite Ht, (IH Hts). reflexivity.
Qed.

(** X17.  An update of a session id that names no session is not an error:
    it is answered 200 "Session updated successfully" and changes
    nothing. *)
Theorem sessions_update_unknown_id (insertId sid : Z)
  (track session_name speaker time venue : string) (cap : Z) (w : world) :
  sid <> 0 ->
  session_exists sid (db w) = false ->
  post_sessions insertId (Some sid) track session_name speaker time venue cap w
  = (session_updated, w).
Proof.
  intros Hnz Hno. rewrite post_sessions_unfold. simpl.
  destruct (Z.eqb_spec sid 0) as [E|_]; [contradiction|]. simpl.
  rewrite (update_tracks_sessions_absent _ _ _ _ _ _ _ _ Hno), with_db_same.
  reflexivity.
Qed.

Lemma sessions_update_unknown_id_witness :
  post_sessions 3 (Some 77) "Main" "Panel" "Chair" "2024-05-02 09:00:00"
    "Hall B" 10 sample_world
  = (session_updated, sample_world).
Proof.
  apply sessions_update_unknown_id; [discriminate|reflexivity].
Defined.

Lemma update_tracks_sessions_in
  (track session_name speaker time venue : string) (cap : Z) (s : store)
  (session : TracksSessions.row) :
  In session (tracks_sessions s) ->
  In {| TracksSessions.session_id := TracksSessions.session_id session;
        TracksSessions.track := track;
        TracksSessions.session_name := session_name;
        TracksSessions.speaker := speaker;
        TracksSessions.time := time;
        TracksSessions.venue := venue;
        TracksSessions.capacity := cap |}
     (tracks_sessions
        (update_tracks_sessions track session_name speaker time venue cap
           (TracksSessions.session_id session) s)).
Proof.
  intros Hin. simpl. apply in_map_iff. exists session.
  rewrite Z.eqb_refl. split; [reflexivity|exact Hin].
Qed.

Lemma select_after_update
  (track session_name speaker time venue : string) (cap : Z) (s : store)
  (session : TracksSessions.row) :
  sessions_keyed s ->
  In session (tracks_sessions s) ->
  select_capacity_registered (TracksSessions.session_id session)
    (update_tracks_sessions track session_name speaker time venue cap
       (TracksSessions.session_id session) s)
  = [{| capacity := cap;
        registered := admitted_count (TracksSessions.session_id session) s |}].
Proof.
  intros Hk HS.
  assert (Hk1 : sessions_keyed
                  (update_tracks_sessions track session_name speaker time
                     venue cap (TracksSessions.session_id session) s)).
  { unfold sessions_keyed. rewrite update_tracks_sessions_ids. exact Hk. }
  exact (select_capacity_registered_keyed _ _ Hk1
           (update_tracks_sessions_in track session_name speaker time venue
              cap s session HS)).
Qed.

(** X18.  An update stores the capacity it is given, without any test, and
    keeps every attendance row; the next check-in to the session is judged
    against the new capacity: 400 "Session is full" when it is not above
    the attendance count (a zero or negative capacity closes the session),
    admission when it is. *)
Theorem sessions_update_capacity_rules_check_in
  (w : world) (session : TracksSessions.row) (insertId : Z)
  (track session_name speaker time venue : string) (cap : Z) :
  sessions_keyed (db w) ->
  In session (tracks_sessions (db w)) ->
  TracksSessions.session_id session <> 0 ->
  let sid := TracksSessions.session_id session in
  let w1 := snd (post_sessions insertId (Some sid) track session_name speaker
                   time venue cap w) in
  fst (post_sessions insertId (Some sid) track session_name speaker
         time venue cap w) = session_updated
  /\ attendance (db w1) = attendance (db w)
  /\ (forall pid, cap <= admitted_count sid (db w) ->
                  post_check_in pid sid w1 = (session_is_full, w1))
  /\ (forall pid, participant_exists pid (db w) = true ->
                  admitted_count sid (db w) < cap ->
                  fst (post_check_in pid sid w1) = check_in_successful).
Proof.
  intros Hk HS Hnz sid w1. subst w1 sid.
  rewrite post_sessions_unfold. simpl truthy.
  destruct (Z.eqb_spec (TracksSessions.session_id session) 0) as [E|_];
    [contradiction|].
  cbn [negb fst snd].
  split; [reflexivity|]. split; [reflexivity|].
  pose proof (select_after_update track session_name speaker time venue cap
                (db w) session Hk HS) as Hsel.
  split.
  - intros pid Hfull. rewrite post_check_in_unfold. cbn [db with_db].
    rewrite Hsel. cbn [registered capacity].
    destruct (Z.geb_spec
                (admitted_count (TracksSessions.session_id session) (db w)) cap);
      [reflexivity|lia].
  - intros pid Hp Hfree. rewrite post_check_in_unfold. cbn [db with_db].
    rewrite Hsel. cbn [registered capacity].
    destruct (Z.geb_spec
                (admitted_count (TracksSessions.session_id session) (db w)) cap);
      [lia|].
    unfold insert_attendance.
    change (participant_exists pid
              (update_tracks_sessions track session_name speaker time venue
                 cap (TracksSessions.session_id session) (db w)))
      with (participant_exists pid (db w)).
    rewrite Hp.
    assert (Hs : session_exists (TracksSessions.session_id session)
                   (update_tracks_sessions track session_name speaker time
                      venue cap (TracksSessions.session_id session) (db w))
                 = true).
    { exact (session_exists_in _ _
               (update_tracks_sessions_in track session_name speaker time
                  venue cap (db w) session HS)). }
    rewrite Hs. reflexivity.
Qed.

Lemma sessions_update_capacity_rules_check_in_witness :
  let w1 := snd (post_sessions 3 (Some 2) "Main" "Workshop" "Chair"
                   "2024-05-01 11:00:00" "Room 2" (-5) ann_at_workshop_world) in
  attendance (db w1) = attendance (db ann_at_workshop_world)
  /\ post_check_in 2 2 w1 = (session_is_full, w1).
Proof.
  intros w1.
  destruct (sessions_update_capacity_rules_check_in ann_at_workshop_world
              workshop 3 "Main" "Workshop" "Chair" "2024-05-01 11:00:00"
              "Room 2" (-5) (sample_sessions_keyed _ _ _ _)
              (or_intror (or_introl eq_refl)))
    as (_ & Hatt & Hfull & _); [discriminate|].
  split; [exact Hatt|]. apply Hfull. vm_compute. discriminate.
Defined.



Lemma NoDup_map_filter {A B : Type} (f : A -> B) (g : A -> bool) (l : list A) :
  NoDup (map f l) -> NoDup (map f (filter g l)).
Proof.
  induction l as [|a l IH]; simpl; intros Hnd; [constructor|].
  inversion Hnd as [|b bs Hb Hnd']; subst.
  destruct (g a); simpl; [|apply IH; exact Hnd'].
  constructor; [|apply IH; exact Hnd'].
  intros Hin. apply Hb. apply in_map_iff in Hin.
  destruct Hin as (x & Hx & Hin). apply in_map_iff. exists x.
  split; [exact Hx|]. apply filter_In in Hin. exact (proj1 Hin).
Qed.

Lemma session_exists_not_in (sid : Z) (s : store) :
  session_exists sid s = false ->
  ~ In sid (map TracksSessions.session_id (tracks_sessions s)).
Proof.
  unfold session_exists. intros Hno Hin.
  apply in_map_iff in Hin. destruct Hin as (t & Ht & Hin).
  assert (Hyes : existsb (fun t0 => TracksSessions.session_id t0 =? sid)
                         (tracks_sessions s) = true).
  { apply existsb_exists. exists t. split; [exact Hin|].
    apply Z.eqb_eq. exact Ht. }
  congruence.
Qed.

(** X20.  [session_id] stays a key of [tracks_sessions] under the catalog
    routes: after any request to [/sessions] (update or insert, answered
    200, 201 or 500) and after any delete, no two sessions share an id. *)
Theorem catalog_routes_keep_keys (w : world) :
  sessions_keyed (db w) ->
  (forall insertId session_id track session_name speaker time venue cap,
      sessions_keyed
        (db (snd (post_sessions insertId session_id track session_name
                    speaker time venue cap w))))
  /\ (forall sid, sessions_keyed (db (snd (delete_sessions sid w)))).
Proof.
  intros Hk. split.
  - intros insertId session_id track session_name speaker time venue cap.
    rewrite post_sessions_unfold.
    destruct (truthy session_id).
    + destruct session_id as [sid|]; [|exact Hk].
      unfold sessions_keyed. cbn [snd db with_db].
      rewrite update_tracks_sessions_ids. exact Hk.
    + unfold insert_tracks_sessions.
      destruct (session_exists insertId (db w)) eqn:Hfresh; [exact Hk|].
      unfold sessions_keyed. simpl. rewrite map_app. simpl.
      apply NoDup_snoc; [exact Hk|].
      apply session_exists_not_in. exact Hfresh.
  - intros sid. unfold sessions_keyed. simpl.
    apply NoDup_map_filter. exact Hk.
Qed.

Lemma catalog_routes_keep_keys_witness :
  sessions_keyed
    (db (snd (post_sessions 3 None "Main" "Panel" "Chair"
                "2024-05-02 09:00:00" "Hall B" 10 sample_world)))
  /\ sessions_keyed (db (snd (delete_sessions 1 sample_world))).
Proof.
  destruct (catalog_routes_keep_keys sample_world
              (sample_sessions_keyed _ _ _ _)) as [Hpost Hdelete].
  split; [apply Hpost|apply Hdelete].
Defined.

Lemma filter_negb_existsb_false {A : Type} (f : A -> bool) (l : list A) :
  existsb f l = false -> filter (fun a => negb (f a)) l = l.
Proof.
  induction l as [|a l IH]; simpl; intros H; [reflexivity|].
  apply orb_false_iff in H. destruct H as [Ha Hl].
  rewrite Ha. simpl. rewrite (IH Hl). reflexivity.
Qed.



Lemma existsb_other_key {A : Type} (key : A -> Z) (k k' : Z) (l : list A) :
  k' <> k ->
  existsb (fun a => key a =? k') (filter (fun a => negb (key a =? k)) l)
  = existsb (fun a => key a =? k') l.
Proof.
  intros Hne. induction l as [|a l IH]; simpl; [reflexivity|].
  destruct (Z.eqb_spec (key a) k) as [E|N]; simpl.
  - destruct (Z.eqb_spec (key a) k') as [E'|_]; [congruence|exact IH].
  - rewrite IH. reflexivity.
Qed.



(** X22.  Deleting a session id that names no session is not an error: it
    is answered 200 "Session deleted successfully" and changes nothing,
    attendance rows included. *)
Theorem delete_sessions_unknown_id (sid : Z) (w : world) :
  session_exists sid (db w) = false ->
  delete_sessions sid w = (session_deleted, w).
Proof.
  intros Hno. unfold delete_sessions, try_catch, bind, execute, ret. simpl.
  f_equal. unfold delete_tracks_sessions. rewrite Hno.
  rewrite (filter_negb_existsb_false
             (fun t => TracksSessions.session_id t =? sid) _ Hno).
  destruct w as [[ps n ts att m] out con]. reflexivity.
Qed.

Lemma delete_sessions_unknown_id_witness :
  delete_sessions 77 sample_world = (session_deleted, sample_world).
Proof. exact (delete_sessions_unknown_id 77 sample_world eq_refl). Defined.

(** ** Referential integrity *)

Lemma references_transfer (s s' : store) :
  (forall p, participant_exists p s = true -> participant_exists p s' = true) ->
  (forall x, session_exists x s = true -> session_exists x s' = true) ->
  attendance s' = attendance s ->
  attendance_references s ->
  attendance_references s'.
Proof.
  intros Hp Hs Ha Href a Hin. rewrite Ha in Hin.
  destruct (Href a Hin) as [H1 H2]. split; [apply Hp|apply Hs]; assumption.
Qed.

Lemma session_exists_update
  (track session_name speaker time venue : string) (cap sid x : Z) (s : store) :
  session_exists x (update_tracks_sessions track session_name speaker time
                      venue cap sid s)
  = session_exists x s.
Proof.
  unfold session_exists. simpl.
  induction (tracks_sessions s) as [|t ts IH]; simpl; [reflexivity|].
  rewrite IH. f_equal.
  destruct (TracksSessions.session_id t =? sid); reflexivity.
Qed.

Section References.
Context {svc : Services}.

(** X23.  Referential integrity of the attendance table is kept by every
    writing route: on a store where each attendance row names an existing
    participant and an existing session, this still holds after a
    check-in, a registration, a session registration, a request to
    [/sessions] and a delete of a session, whatever the answer. *)
Theorem routes_keep_references (w : world) :
  attendance_references (db w) ->
  (forall pid sid, attendance_references (db (snd (post_check_in pid sid w))))
  /\ (forall name email password,
         attendance_references (db (snd (post_register name email password w))))
  /\ (forall pid sid,
         attendance_references (db (snd (post_register_session pid sid w))))
  /\ (forall insertId session_id track session_name speaker time venue cap,
         attendance_references
           (db (snd (post_sessions insertId session_id track session_name
                       speaker time venue cap w))))
  /\ (forall sid, attendance_references (db (snd (delete_sessions sid w)))).
Proof.
  intros Href. split; [|split; [|split; [|split]]].
  - intros pid sid. rewrite post_check_in_unfold.
    destruct (select_capacity_registered sid (db w)) as [|session rest];
      [exact Href|].
    destruct (registered session >=? capacity session); [exact Href|].
    unfold insert_attendance.
    destruct (participant_exists pid (db w)) eqn:Hp; [|exact Href].
    destruct (session_exists sid (db w)) eqn:Hs; [|exact Href].
    simpl. intros a Hin. simpl in Hin. apply in_app_or in Hin.
    destruct Hin as [Hin|[<-|[]]]; [exact (Href a Hin)|].
    split; [exact Hp|exact Hs].
  - intros name email password. rewrite post_register_unfold.
    destruct password as [pw|]; [|exact Href].
    destruct (QRCode_toDataURL (name ++ newline ++ email)) as [qr|];
      [|exact Href].
    destruct (insert_participant name email (bcrypt_hash pw) qr (db w))
      as [e|[i s']] eqn:Hins; [exact Href|].
    destruct (insert_participant_inr _ _ _ _ _ _ _ Hins) as (_ & _ & _ & ->).
    assert (Hnew : attendance_references
                     {| participants :=
                          participants (db w) ++
                          [{| Participants.participant_id :=
                                participants_auto_increment (db w);
                              Participants.name := name;
                              Participants.email := email;
                              Participants.organization := None;
                              Participants.password_hash := bcrypt_hash pw;
                              Participants.qr_code := qr;
                              Participants.sessions_registered := None |}];
                        participants_auto_increment :=
                          participants_auto_increment (db w) + 1;
                        tracks_sessions := tracks_sessions (db w);
                        attendance := attendance (db w);
                        attendance_auto_increment :=
                          attendance_auto_increment (db w) |}).
    { apply (references_transfer (db w)); try exact Href; try reflexivity.
      - intros p Hp. unfold participant_exists in *. simpl.
        rewrite existsb_app, Hp. reflexivity.
      - intros x Hx. exact Hx. }
    destruct (smtp_accepts (registration_mail email qr)); exact Hnew.
  - intros pid sid. rewrite post_register_session_unfold.
    apply (references_transfer (db w)); try exact Href; try reflexivity.
    + intros p Hp. simpl db. rewrite participant_exists_update. exact Hp.
    + intros x Hx. exact Hx.
  - intros insertId session_id track session_name speaker time venue cap.
    rewrite post_sessions_unfold. destruct (truthy session_id).
    + destruct session_id as [sid|]; [|exact Href].
      apply (references_transfer (db w)); try exact Href; try reflexivity.
      * intros p Hp. exact Hp.
      * intros x Hx. cbn [snd db with_db].
        rewrite session_exists_update. exact Hx.
    + unfold insert_tracks_sessions.
      destruct (session_exists insertId (db w)); [exact Href|].
      apply (references_transfer (db w)); try exact Href; try reflexivity.
      * intros p Hp. exact Hp.
      * intros x Hx. unfold session_exists in *. simpl.
        rewrite existsb_app, Hx. reflexivity.
  - intros sid a Hin. simpl in Hin.
    assert (Hold : In a (attendance (db w))
                   /\ Attendance.session_id a <> sid).
    { destruct (session_exists sid (db w)) eqn:Hex.
      - apply filter_In in Hin. destruct Hin as [Hin Hne].
        split; [exact Hin|]. intros E. rewrite E, Z.eqb_refl in Hne.
        discriminate.
      - split; [exact Hin|]. intros E.
        destruct (Href a Hin) as [_ Hs]. congruence. }
    destruct Hold as [Hold Hne]. destruct (Href a Hold) as [Hp Hs].
    split; [exact Hp|].
    unfold session_exists. simpl.
    rewrite (existsb_other_key TracksSessions.session_id sid
               (Attendance.session_id a) _ Hne).
    exact Hs.
Qed.
End References.

Lemma routes_keep_references_witness :
  attendance_references (db ann_at_workshop_world) /\
  attendance_references (db (snd (delete_sessions 2 ann_at_workshop_world))) /\
  attendance_references (db (snd (post_check_in 2 2 ann_at_workshop_world))).
Proof.
  assert (Href : attendance_references (db ann_at_workshop_world)).
  { intros a [<-|[]]. split; reflexivity. }
  destruct (@routes_keep_references sample_services ann_at_workshop_world Href)
    as (Hcheck & _ & _ & _ & Hdelete).
  split; [exact Href|]. split; [apply Hdelete|apply Hcheck].
Defined.

(** ** Proceedings *)

(** X24.  An upload with a file is answered 201 and the next listing ends
    with it: the name is the original name of the file, the path is
    "uploads/" followed by the name multer stored it under, and the
    earlier files are listed before it as they were.  An upload without a
    file is answered 500 "Error uploading proceedings" and stores
    nothing. *)
Theorem upload_then_listed (file : option uploaded_file) (a : archive) :
  let r := fst (post_upload_proceedings file a) in
  let a' := snd (post_upload_proceedings file a) in
  match file with
  | Some f =>
      status r = 201
      /\ body (fst (get_proceedings a'))
         = JArr (map Proceedings.select_star (proceedings a)
                 ++ [JObj [("file_id"%string, JNum (proceedings_auto_increment a));
                           ("file_name"%string, JStr (originalname f));
                           ("file_path"%string,
                            JStr ("uploads/" ++ filename f)%string)]])
  | None =>
      r = {| status := 500; body := json_error "Error uploading proceedings" |}
      /\ proceedings a' = proceedings a
      /\ fst (get_proceedings a') = fst (get_proceedings a)
  end.
Proof.
  destruct file as [f|]; simpl.
  - split; [reflexivity|]. rewrite map_app. reflexivity.
  - repeat split.
Qed.

Lemma check_in_frame_witness :
  1 <> 2 /\
  admitted_count 1 (db (snd (post_check_in 2 2 ann_at_workshop_world)))
  = admitted_count 1 (db ann_at_workshop_world).
Proof.
  assert (Hne : 1 <> 2) by discriminate.
  split; [exact Hne|].
  exact (proj2 (proj2 (proj2 (proj2 (check_in_frame 2 2 ann_at_workshop_world))))
           1 Hne).
Defined.

Lemma register_session_frame_witness :
  nth_error (participants (db sample_world)) 1 = Some bob /\
  exists p',
    nth_error (participants (db (snd (post_register_session 1 5 sample_world))))
              1 = Some p'
    /\ Participants.email p' = Participants.email bob.
Proof.
  assert (Hbob : nth_error (participants (db sample_world)) 1 = Some bob)
    by reflexivity.
  split; [exact Hbob|].
  destruct (proj2 (proj2 (proj2 (proj2 (proj2
              (register_session_frame 1 5 sample_world))))) 1%nat bob Hbob)
    as (p' & Hnth & _ & _ & He & _).
  exists p'. split; [exact Hnth|exact He].
Defined.
